(** * aws-emr-launch: EMR constructs and utility Lambdas

    A shallow embedding of
    - [aws_emr_launch/constructs/emr_constructs/emr_code.py]
      ([StepFailureAction], [Code], [EmrCode], [EmrBootstrapAction], [EmrStep]);
    - [aws_emr_launch/constructs/lambdas/emr_utilities.py]
      ([StepFunctionLambdas], [LaunchEMRConfigLambda]).

    Python objects live in a store addressed by references, so that an
    [EmrCode] shared by several steps or bootstrap actions is one object.
    The CDK construct tree is the list of resources instantiated so far. *)

From Stdlib Require Import ZArith DecimalString.
From Stdlib Require DecimalZ DecimalPos.
From stdpp Require Import base option list strings gmap.

Open Scope string_scope.
Open Scope list_scope.

(** ** Python values and calling conventions *)

(** The values the [bind_scope] methods put in their mappings. A [dict] with
    string keys is a finite map: Python compares dicts by their entries. *)
#[local] Set Warnings "-register-all".
Inductive value :=
| VNone
| VStr (s : string)
| VList (xs : list value)
| VDict (d : gmap string value).

(** A keyword argument with a default is either left out or passed. *)
Inductive kwarg (A : Type) :=
| Omitted
| Passed (a : A).
Arguments Omitted {A}.
Arguments Passed {A} a.

Definition kwarg_default {A : Type} (d : A) (k : kwarg A) : A :=
  match k with
  | Omitted => d
  | Passed a => a
  end.

(** Truth value of an [Optional[str]]: [None] and [''] are false. *)
Definition truthy_str (s : option string) : bool :=
  match s with
  | None => false
  | Some "" => false
  | Some _ => true
  end.

(** Truth value of an [Optional[List[_]]]: [None] and [[]] are false. *)
Definition truthy_list {A : Type} (l : option (list A)) : bool :=
  match l with
  | None => false
  | Some [] => false
  | Some (_ :: _) => true
  end.

(** [f'{x}'] for an [Optional[str]]. *)
Definition format_str (s : option string) : string :=
  match s with
  | None => "None"
  | Some s => s
  end.

(** [str(n)] for an [int]. *)
Definition str_int (n : Z) : string :=
  NilZero.string_of_int (Z.to_int n).

(** [str(x)] for an [Optional[int]]. *)
Definition str_opt_int (x : option Z) : string :=
  match x with
  | None => "None"
  | Some n => str_int n
  end.

(** [str(x)] for an [Optional[bool]]. *)
Definition str_opt_bool (x : option bool) : string :=
  match x with
  | None => "None"
  | Some true => "True"
  | Some false => "False"
  end.

(** A [List[str]] as a value. *)
Definition value_of_strs (l : list string) : value := VList (VStr <$> l).

(** An [Optional[List[str]]] as a value. *)
Definition value_of_opt_strs (l : option (list string)) : value :=
  match l with
  | None => VNone
  | Some l => value_of_strs l
  end.

(** An [Optional[List[Dict]]] as a value. *)
Definition value_of_opt_list (l : option (list value)) : value :=
  match l with
  | None => VNone
  | Some l => VList l
  end.

(** An [Optional[str]] as a value. *)
Definition value_of_opt_str (s : option string) : value :=
  match s with
  | None => VNone
  | Some s => VStr s
  end.

(** ** emr_code.py *)

(** [class StepFailureAction(enum.Enum)] *)
Inductive StepFailureAction :=
| TERMINATE_JOB_FLOW
| TERMINATE_CLUSTER
| CANCEL_AND_WAIT
| CONTINUE.

(** The [.value] of a member: the right-hand side of its definition. *)
Definition StepFailureAction_value (a : StepFailureAction) : string :=
  match a with
  | TERMINATE_JOB_FLOW => "TERMINATE_JOB_FLOW"
  | TERMINATE_CLUSTER => "TERMINATE_CLUSTER"
  | CANCEL_AND_WAIT => "CANCEL_AND_WAIT"
  | CONTINUE => "CONTINUE"
  end.

(** The [.name] of a member: the identifier it is bound to in the class body. *)
Definition StepFailureAction_name (a : StepFailureAction) : string :=
  match a with
  | TERMINATE_JOB_FLOW => "TERMINATE_JOB_FLOW"
  | TERMINATE_CLUSTER => "TERMINATE_CLUSTER"
  | CANCEL_AND_WAIT => "CANCEL_AND_WAIT"
  | CONTINUE => "CONTINUE"
  end.

(** *** What the code uses of the CDK *)

(** A scope is a node of the construct tree, known by its path. *)
Definition Construct := string.

(** [s3.Bucket]: only [bucket_name] is read. *)
Record Bucket := { bucket_name : string }.

(** [s3_deployment.Source.asset(path)] *)
Inductive Source :=
| Source_asset (path : string).

(** [s3_deployment.BucketDeploymentProps], the three properties the code
    sets or reads. The key prefix is optional in the CDK. *)
Record BucketDeploymentProps := {
  sources : list Source;
  destination_bucket : Bucket;
  destination_key_prefix : option string
}.

(** A [s3_deployment.BucketDeployment] resource: the scope and id it was
    instantiated with, and its properties. *)
Record BucketDeployment := {
  bd_scope : Construct;
  bd_id : string;
  bd_props : BucketDeploymentProps
}.

(** *** Objects and the store *)

Definition ref := positive.

(** Attributes of an [EmrCode] instance. *)
Record EmrCode_obj := {
  code_deployment_props : BucketDeploymentProps;
  code_deployment_bucket : Bucket;
  code_deployment_prefix : option string;
  code_id : option string;
  code_bucket_deployment : option BucketDeployment
}.

(** Attributes of an [EmrBootstrapAction] instance; [boot_code] is a
    reference to an [EmrCode]. *)
Record EmrBootstrapAction_obj := {
  boot_name : string;
  boot_path : string;
  boot_args : option (list string);
  boot_code : option ref
}.

(** Attributes of an [EmrStep] instance; [step_code] is a reference to an
    [EmrCode]. A property is a [Dict], kept as a [value]. *)
Record EmrStep_obj := {
  step_name : string;
  step_jar : string;
  step_main_class : option string;
  step_args : option (list string);
  step_action_on_failure : StepFailureAction;
  step_properties : option (list value);
  step_code : option ref
}.

Inductive obj :=
| OCode (c : EmrCode_obj)
| OBootstrapAction (b : EmrBootstrapAction_obj)
| OStep (s : EmrStep_obj).

(** The store of objects and the resources instantiated in the construct
    tree, oldest first. *)
Record world := {
  heap : gmap ref obj;
  deployments : list BucketDeployment
}.

Definition alloc (o : obj) (w : world) : ref * world :=
  let r := fresh (dom (heap w)) in
  (r, {| heap := <[r := o]> (heap w); deployments := deployments w |}).

Definition store (r : ref) (o : obj) (w : world) : world :=
  {| heap := <[r := o]> (heap w); deployments := deployments w |}.

(** [s3_deployment.BucketDeployment(scope, id, **props)]: the resource is
    added to the tree and returned. *)
Definition BucketDeployment_new (scope : Construct) (id : string)
    (props : BucketDeploymentProps) (w : world) : BucketDeployment * world :=
  let d := {| bd_scope := scope; bd_id := id; bd_props := props |} in
  (d, {| heap := heap w; deployments := deployments w ++ [d] |}).

Module EmrCode.

(** [EmrCode.__init__] *)
Definition init (deployment_props : BucketDeploymentProps)
    (id : kwarg (option string)) (w : world) : ref * world :=
  alloc (OCode {|
    code_deployment_props := deployment_props;
    code_deployment_bucket := destination_bucket deployment_props;
    code_deployment_prefix := destination_key_prefix deployment_props;
    code_id := kwarg_default None id;
    code_bucket_deployment := None |}) w.

(** The [s3_path] property, on the attributes. *)
Definition s3_path_of (c : EmrCode_obj) : string :=
  "s3://" +:+ bucket_name (code_deployment_bucket c) +:+ "/"
    +:+ format_str (code_deployment_prefix c).

(** The [s3_path] property, through a reference. *)
Definition s3_path (self : ref) (w : world) : option string :=
  match heap w !! self with
  | Some (OCode c) => Some (s3_path_of c)
  | _ => None
  end.

(** The id of the deployment resource. *)
Definition deployment_id (c : EmrCode_obj) : string :=
  if truthy_str (code_id c)
  then "BucketDeployment_" +:+ format_str (code_id c)
  else "BucketDeployment".

(** [self._bucket_deployment = d] *)
Definition set_bucket_deployment (c : EmrCode_obj) (d : BucketDeployment)
    : EmrCode_obj :=
  {| code_deployment_props := code_deployment_props c;
     code_deployment_bucket := code_deployment_bucket c;
     code_deployment_prefix := code_deployment_prefix c;
     code_id := code_id c;
     code_bucket_deployment := Some d |}.

(** [EmrCode.bind_scope]. [None] is a call on something that is not an
    [EmrCode], which Python answers with an exception. *)
Definition bind_scope (self : ref) (scope : Construct) (w : world)
    : option (value * world) :=
  match heap w !! self with
  | Some (OCode c) =>
      let w1 :=
        match code_bucket_deployment c with
        | None =>
            let deployment_props := code_deployment_props c in
            let '(d, w') :=
              BucketDeployment_new scope (deployment_id c) deployment_props w in
            store self (OCode (set_bucket_deployment c d)) w'
        | Some _ => w
        end in
      p ← s3_path self w1;
      Some (VDict {[ "S3Path" := VStr p ]}, w1)
  | _ => None
  end.

End EmrCode.

Module Code.

(** [Code.from_path] *)
Definition from_path (path : string) (deployment_bucket : Bucket)
    (deployment_prefix : string) (w : world) : ref * world :=
  EmrCode.init
    {| sources := [Source_asset path];
       destination_bucket := deployment_bucket;
       destination_key_prefix := Some deployment_prefix |}
    Omitted w.

(** [Code.from_props] *)
Definition from_props (deployment_props : BucketDeploymentProps) (w : world)
    : ref * world :=
  EmrCode.init deployment_props Omitted w.

End Code.

Module EmrBootstrapAction.

(** [EmrBootstrapAction.__init__] *)
Definition init (name path : string) (args : kwarg (option (list string)))
    (code : kwarg (option ref)) (w : world) : ref * world :=
  alloc (OBootstrapAction {|
    boot_name := name;
    boot_path := path;
    boot_args := kwarg_default None args;
    boot_code := kwarg_default None code |}) w.

Definition get (self : ref) (w : world) : option EmrBootstrapAction_obj :=
  match heap w !! self with
  | Some (OBootstrapAction b) => Some b
  | _ => None
  end.

(** The mapping built by the [return] statement. *)
Definition mapping (b : EmrBootstrapAction_obj) : value :=
  VDict {[
    "Name" := VStr (boot_name b);
    "ScriptBootstrapAction" := VDict {[
      "Path" := VStr (boot_path b);
      "Args" := if truthy_list (boot_args b)
                then value_of_opt_strs (boot_args b)
                else VList []
    ]}
  ]}.

(** [EmrBootstrapAction.bind_scope]: the attributes of [self] are read
    again after the call on the code. *)
Definition bind_scope (self : ref) (scope : Construct) (w : world)
    : option (value * world) :=
  b ← get self w;
  w1 ← match boot_code b with
       | Some code => snd <$> EmrCode.bind_scope code scope w
       | None => Some w
       end;
  b1 ← get self w1;
  Some (mapping b1, w1).

End EmrBootstrapAction.

Module EmrStep.

(** [EmrStep.__init__] *)
Definition init (name jar : string) (main_class : kwarg (option string))
    (args : kwarg (option (list string)))
    (action_on_failure : kwarg StepFailureAction)
    (properties : kwarg (option (list value)))
    (code : kwarg (option ref)) (w : world) : ref * world :=
  alloc (OStep {|
    step_name := name;
    step_jar := jar;
    step_main_class := kwarg_default None main_class;
    step_args := kwarg_default None args;
    step_action_on_failure := kwarg_default CONTINUE action_on_failure;
    step_properties := kwarg_default None properties;
    step_code := kwarg_default None code |}) w.

Definition get (self : ref) (w : world) : option EmrStep_obj :=
  match heap w !! self with
  | Some (OStep s) => Some s
  | _ => None
  end.

(** The mapping built by the [return] statement. *)
Definition mapping (s : EmrStep_obj) : value :=
  VDict {[
    "Name" := VStr (step_name s);
    "ActionOnFailure" := VStr (StepFailureAction_name (step_action_on_failure s));
    "HadoopJarStep" := VDict {[
      "Jar" := VStr (step_jar s);
      "MainClass" := value_of_opt_str (step_main_class s);
      "Args" := if truthy_list (step_args s)
                then value_of_opt_strs (step_args s)
                else VList [];
      "Properties" := if truthy_list (step_properties s)
                      then value_of_opt_list (step_properties s)
                      else VList []
    ]}
  ]}.

(** [EmrStep.bind_scope] *)
Definition bind_scope (self : ref) (scope : Construct) (w : world)
    : option (value * world) :=
  s ← get self w;
  w1 ← match step_code s with
       | Some code => snd <$> EmrCode.bind_scope code scope w
       | None => Some w
       end;
  s1 ← get self w1;
  Some (mapping s1, w1).

End EmrStep.

(** ** emr_utilities.py *)

(** *** What the code uses of the CDK *)

(** [iam.Effect] *)
Inductive Effect :=
| ALLOW
| DENY.

(** [iam.PolicyStatement(effect=..., actions=..., resources=...)] *)
Record PolicyStatement := {
  effect : Effect;
  actions : list string;
  resources : list string
}.

(** [aws_lambda.Runtime] *)
Record Runtime := {
  runtime_name : string;
  supports_inline_code : bool
}.

Definition PYTHON_3_7 : Runtime :=
  {| runtime_name := "python3.7"; supports_inline_code := true |}.

(** [core.Duration.minutes(n)] *)
Inductive Duration :=
| Duration_minutes (n : Z).

(** [aws_lambda.Code.asset(path)] *)
Inductive LambdaCode :=
| LambdaCode_asset (path : string).

(** The keyword arguments of [aws_lambda.Function], which are also the
    [_values] of an [aws_lambda.FunctionProps]. An entry that is not there
    is [None]. *)
Record FunctionProps := {
  fp_code : option LambdaCode;
  fp_handler : option string;
  fp_runtime : option Runtime;
  fp_timeout : option Duration;
  fp_initial_policy : option (list PolicyStatement);
  fp_environment : option (gmap string string)
}.

(** An [aws_lambda.Function] resource: the scope and id it was instantiated
    with, and its keyword arguments. *)
Record Function := {
  fn_scope : Construct;
  fn_id : string;
  fn_props : FunctionProps
}.

(** [sfn.StateMachine]: only [state_machine_arn] is read. *)
Record StateMachine := { state_machine_arn : string }.

(** [sns.Topic]: only [topic_arn] is read. *)
Record Topic := { topic_arn : string }.

(** The path of a construct instantiated as [id] under [scope]. *)
Definition child_path (scope : Construct) (id : string) : Construct :=
  scope +:+ "/" +:+ id.

(** [dict(base, **kwargs)]: a copy of [base] in which every entry of
    [kwargs] is set. *)
Definition dict_with_kwargs {V : Type} (base kwargs : gmap string V)
    : gmap string V :=
  kwargs ∪ base.

(** [function_props['environment'] = env] *)
Definition set_environment (p : FunctionProps) (env : gmap string string)
    : FunctionProps :=
  {| fp_code := fp_code p;
     fp_handler := fp_handler p;
     fp_runtime := fp_runtime p;
     fp_timeout := fp_timeout p;
     fp_initial_policy := fp_initial_policy p;
     fp_environment := Some env |}.

(** The statements of a function's initial policy. *)
Definition initial_policy (f : Function) : list PolicyStatement :=
  default [] (fp_initial_policy (fn_props f)).

(** The environment of a function. *)
Definition environment_of (f : Function) : gmap string string :=
  default ∅ (fp_environment (fn_props f)).

Module StepFunctionLambdas.

Section lambda_path.

(** [_lambda_path] is imported from the package's [__init__.py]. *)
Variable _lambda_path : string -> string.

Record t := {
  _run_job_flow : Function;
  _add_job_flow_steps : Function;
  _check_step_status : Function
}.

(** [StepFunctionLambdas.__init__] *)
Definition init (scope : Construct) (id : string) : t :=
  let self := child_path scope id in
  let code := LambdaCode_asset (_lambda_path "emr_utilities") in
  {| _run_job_flow :=
       {| fn_scope := self;
          fn_id := "StepFunctionLambdas_AddJobFlow";
          fn_props :=
            {| fp_code := Some code;
               fp_handler := Some "run_job_flow.handler";
               fp_runtime := Some PYTHON_3_7;
               fp_timeout := Some (Duration_minutes 5);
               fp_initial_policy := Some [
                 {| effect := ALLOW;
                    actions := [
                      "elasticmapreduce:RunJobFlow";
                      "elasticmapreduce:ListClusters";
                      "elasticmapreduce:ListSteps" ];
                    resources := ["*"] |} ];
               fp_environment := None |} |};
     _add_job_flow_steps :=
       {| fn_scope := self;
          fn_id := "StepFunctionLambdas_AddJobFlowSteps";
          fn_props :=
            {| fp_code := Some code;
               fp_handler := Some "add_job_flow_steps.handler";
               fp_runtime := Some PYTHON_3_7;
               fp_timeout := Some (Duration_minutes 5);
               fp_initial_policy := Some [
                 {| effect := ALLOW;
                    actions := [
                      "elasticmapreduce:AddJobFlowSteps" ];
                    resources := ["*"] |} ];
               fp_environment := None |} |};
     _check_step_status :=
       {| fn_scope := self;
          fn_id := "StepFunctionLambdas_CheckStepStatus";
          fn_props :=
            {| fp_code := Some code;
               fp_handler := Some "check_step_status.handler";
               fp_runtime := Some PYTHON_3_7;
               fp_timeout := Some (Duration_minutes 5);
               fp_initial_policy := Some [
                 {| effect := ALLOW;
                    actions := [
                      "elasticmapreduce:DescribeCluster";
                      "elasticmapreduce:DescribeStep";
                      "cloudwatch:PutMetricData" ];
                    resources := ["*"] |} ];
               fp_environment := None |} |} |}.

(** The three properties. *)
Definition run_job_flow (self : t) : Function := _run_job_flow self.
Definition add_job_flow_steps (self : t) : Function := _add_job_flow_steps self.
Definition check_step_status (self : t) : Function := _check_step_status self.

End lambda_path.

End StepFunctionLambdas.

Module LaunchEMRConfigLambda.

Section json.

(** [cluster_config] is a [dict] handed to [json.dumps]. *)
Variable Json : Type.
Variable json_dumps : Json -> string.

(** The local [environment] of [__init__], as it is when the merge is
    reached. *)
Definition environment (step_function : StateMachine) (cluster_config : Json)
    (step_function_wait_time : option Z) (fail_if_job_running : option bool)
    (success_topic failure_topic : option Topic) : gmap string string :=
  let environment : gmap string string :=
    {[ "DEFAULT_STEP_FUNCTION_ARN" := state_machine_arn step_function;
       "DEFAULT_CLUSTER_CONFIG" := json_dumps cluster_config;
       "DEFAULT_STEP_FUNCTION_WAIT_TIME" := str_opt_int step_function_wait_time;
       "DEFAULT_FAIL_IF_JOB_RUNNING" := str_opt_bool fail_if_job_running ]} in
  let environment :=
    match success_topic with
    | Some success_topic =>
        <[ "DEFAULT_SUCCESS_TOPIC_ARN" := topic_arn success_topic ]> environment
    | None => environment
    end in
  let environment :=
    match failure_topic with
    | Some failure_topic =>
        <[ "DEFAULT_FAILURE_TOPIC_ARN" := topic_arn failure_topic ]> environment
    | None => environment
    end in
  environment.

(** [LaunchEMRConfigLambda.__init__]. The [_values] of [props] are updated
    in place, so the result is the props as they are afterwards and the
    function instantiated from them. *)
Definition init (scope : Construct) (id : string) (props : FunctionProps)
    (step_function : StateMachine) (cluster_config : Json)
    (step_function_wait_time : kwarg (option Z))
    (fail_if_job_running : kwarg (option bool))
    (success_topic failure_topic : kwarg (option Topic))
    : FunctionProps * Function :=
  let environment :=
    environment step_function cluster_config
      (kwarg_default (Some 60%Z) step_function_wait_time)
      (kwarg_default (Some false) fail_if_job_running)
      (kwarg_default None success_topic)
      (kwarg_default None failure_topic) in
  let function_props := props in
  let function_props :=
    set_environment function_props
      (dict_with_kwargs (default ∅ (fp_environment function_props)) environment) in
  (function_props,
   {| fn_scope := scope; fn_id := id; fn_props := function_props |}).

End json.

End LaunchEMRConfigLambda.

Arguments LaunchEMRConfigLambda.environment {Json} json_dumps.
Arguments LaunchEMRConfigLambda.init {Json} json_dumps.

(** [aws_lambda.LayerVersion(scope, id, code=..., compatible_runtimes=...,
    description=...)] *)
Record LayerVersion := {
  lv_scope : Construct;
  lv_id : string;
  lv_code : LambdaCode;
  lv_compatible_runtimes : list Runtime;
  lv_description : string
}.

Module EMRUtilitiesStack.

Section stack.

(** [_lambda_path] is imported from the package's [__init__.py]. *)
Variable _lambda_path : string -> string.

(** [core.StackProps], and the node of the stack that [core.Stack.__init__]
    sets up from the keyword arguments [stack_props]. *)
Variable StackProps : Type.
Variable Stack : StackProps -> Construct.

Record t := {
  _step_function_lambdas : StepFunctionLambdas.t;
  _emr_config_utils_layer : LayerVersion
}.

(** [EMRUtilitiesStack.__init__] *)
Definition init (props : StackProps) : t :=
  let stack_props := props in
  let self := Stack stack_props in
  {| _step_function_lambdas :=
       StepFunctionLambdas.init _lambda_path self
         "EMRUtilitiesStack_StepFunctionLambdas";
     _emr_config_utils_layer :=
       {| lv_scope := self;
          lv_id := "EMRUtilitiesStack_EMRConfigUtilsLayer";
          lv_code := LambdaCode_asset (_lambda_path "layers/emr_config_utils");
          lv_compatible_runtimes :=
            [ {| runtime_name := "python3.7"; supports_inline_code := true |} ];
          lv_description := "" |} |}.

(** The [step_function_lambdas] property. *)
Definition step_function_lambdas (self : t) : StepFunctionLambdas.t :=
  _step_function_lambdas self.

End stack.

End EMRUtilitiesStack.

Arguments EMRUtilitiesStack.init _lambda_path {StackProps} Stack props.

(** The path of a function and of a layer in the construct tree. *)
Definition function_path (f : Function) : Construct :=
  child_path (fn_scope f) (fn_id f).

Definition layer_path (l : LayerVersion) : Construct :=
  child_path (lv_scope l) (lv_id l).

(** ** Programs over the store *)

(** One call of a constructor or of a [bind_scope] of emr_code.py, by
    anyone, on any object. *)
Inductive step : world -> world -> Prop :=
| step_Code_from_path path bucket prefix w :
    step w (Code.from_path path bucket prefix w).2
| step_Code_from_props props w :
    step w (Code.from_props props w).2
| step_EmrCode_init props id w :
    step w (EmrCode.init props id w).2
| step_EmrCode_bind_scope self scope w v w' :
    EmrCode.bind_scope self scope w = Some (v, w') -> step w w'
| step_EmrBootstrapAction_init name path args code w :
    step w (EmrBootstrapAction.init name path args code w).2
| step_EmrBootstrapAction_bind_scope self scope w v w' :
    EmrBootstrapAction.bind_scope self scope w = Some (v, w') -> step w w'
| step_EmrStep_init name jar main_class args action properties code w :
    step w (EmrStep.init name jar main_class args action properties code w).2
| step_EmrStep_bind_scope self scope w v w' :
    EmrStep.bind_scope self scope w = Some (v, w') -> step w w'.

(** Any number of such calls. *)
Definition steps : world -> world -> Prop := rtc step.

(** How an object can differ after a call: not at all, or it is an
    [EmrCode] whose deployment has been set for the first time. *)
Inductive evolves : obj -> obj -> Prop :=
| evolves_same o : evolves o o
| evolves_bound c d :
    code_bucket_deployment c = None ->
    evolves (OCode c) (OCode (EmrCode.set_bucket_deployment c d)).

(** [r] refers to an [EmrCode] whose deployment is not instantiated. *)
Definition unbound (r : ref) (w : world) : Prop :=
  exists c, heap w !! r = Some (OCode c) /\ code_bucket_deployment c = None.

(** [r] refers to an [EmrCode] whose deployment is [d]. *)
Definition bound (r : ref) (d : BucketDeployment) (w : world) : Prop :=
  exists c, heap w !! r = Some (OCode c) /\ code_bucket_deployment c = Some d.

(** An optional reference to a code refers to an [EmrCode]. *)
Definition code_ok (code : option ref) (w : world) : Prop :=
  match code with
  | Some r => exists c, heap w !! r = Some (OCode c)
  | None => True
  end.

(** Entry [k] of a mapping. *)
Definition entry (k : string) (v : value) : option value :=
  match v with
  | VDict d => d !! k
  | _ => None
  end.

(** An object that is an [EmrCode] with its deployment instantiated. *)
Definition is_bound (o : obj) : bool :=
  match o with
  | OCode c =>
      match code_bucket_deployment c with
      | Some _ => true
      | None => false
      end
  | _ => false
  end.

(** The codes of the store whose deployment is instantiated. *)
Definition bound_codes (w : world) : gmap ref obj :=
  filter (fun ro => is_bound ro.2 = true) (heap w).

(** The deployment a call of [bind_scope] on code [c] with [scope]
    instantiates when there is none yet. *)
Definition deployment_of (c : EmrCode_obj) (scope : Construct)
    : BucketDeployment :=
  {| bd_scope := scope;
     bd_id := EmrCode.deployment_id c;
     bd_props := code_deployment_props c |}.

(** A call that returned [res] from world [w] made a new object and did
    nothing else: the reference was free, no resource was instantiated and
    every object of [w] is as it was. *)
Definition allocates_only (w : world) (res : ref * world) : Prop :=
  heap w !! res.1 = None /\
  is_Some (heap res.2 !! res.1) /\
  deployments res.2 = deployments w /\
  forall r o, heap w !! r = Some o -> heap res.2 !! r = Some o.

(** The id of the deployment of a code constructed with [id]. *)
Definition deployment_id_for (id : kwarg (option string)) : string :=
  match id with
  | Passed (Some "") => "BucketDeployment"
  | Passed (Some id) => "BucketDeployment_" +:+ id
  | Passed None => "BucketDeployment"
  | Omitted => "BucketDeployment"
  end.

(** ** The specification's wording *)

(** An optional argument is supplied when it is passed and is not [None]. *)
Definition supplied {A : Type} (k : kwarg (option A)) : Prop :=
  exists a, k = Passed (Some a).

(** "The constructor's list when supplied and the empty list when it was
    omitted or None". *)
Definition supplied_or_empty {A : Type} (k : kwarg (option (list A))) : list A :=
  match k with
  | Passed (Some l) => l
  | Passed None => []
  | Omitted => []
  end.

(** The environment rule as the specification words it: the four base keys,
    and [SUCCESS_TOPIC_ARN] and [FAILURE_TOPIC_ARN] exactly when the topic is
    supplied. *)
Definition spec_environment_rule (env : gmap string string)
    (success_topic failure_topic : kwarg (option Topic)) : Prop :=
  is_Some (env !! "DEFAULT_STEP_FUNCTION_ARN") /\
  is_Some (env !! "DEFAULT_CLUSTER_CONFIG") /\
  is_Some (env !! "DEFAULT_STEP_FUNCTION_WAIT_TIME") /\
  is_Some (env !! "DEFAULT_FAIL_IF_JOB_RUNNING") /\
  (is_Some (env !! "SUCCESS_TOPIC_ARN") <-> supplied success_topic) /\
  (is_Some (env !! "FAILURE_TOPIC_ARN") <-> supplied failure_topic).

(** ** Sample objects *)

Definition sample_bucket : Bucket := {| bucket_name := "artifacts" |}.

Definition sample_props : BucketDeploymentProps :=
  {| sources := [Source_asset "./steps"];
     destination_bucket := sample_bucket;
     destination_key_prefix := Some "emr/steps" |}.

Definition empty_world : world := {| heap := ∅; deployments := [] |}.

(** A code, then a step and a bootstrap action that share it. *)
Definition sample_code : ref * world :=
  EmrCode.init sample_props Omitted empty_world.

Definition sample_step : ref * world :=
  EmrStep.init "wordcount" "command-runner.jar" (Passed (Some "WordCount"))
    (Passed (Some ["in"; "out"])) Omitted Omitted
    (Passed (Some sample_code.1)) sample_code.2.

Definition sample_bootstrap_action : ref * world :=
  EmrBootstrapAction.init "install" "s3://artifacts/emr/steps/install.sh"
    Omitted (Passed (Some sample_code.1)) sample_step.2.

(** A launch function: the only cluster config is [{}], which [json.dumps]
    writes as ['{}']. *)
Definition sample_dumps (cluster_config : unit) : string := "{}".

Definition sample_state_machine : StateMachine :=
  {| state_machine_arn := "arn:aws:states:us-west-2:123456789012:stateMachine:launch" |}.

Definition sample_topic : Topic :=
  {| topic_arn := "arn:aws:sns:us-west-2:123456789012:done" |}.

Definition sample_function_props : FunctionProps :=
  {| fp_code := Some (LambdaCode_asset "lambdas/launch");
     fp_handler := Some "launch.handler";
     fp_runtime := Some PYTHON_3_7;
     fp_timeout := None;
     fp_initial_policy := None;
     fp_environment := Some {[ "DEFAULT_SUCCESS_TOPIC_ARN" := "arn:kept";
                               "SUCCESS_TOPIC_ARN" := "arn:other";
                               "STAGE" := "prod" ]} |}.

(** Both topics supplied, an empty environment in the props. *)
Definition sample_launch_with_topics : FunctionProps * Function :=
  LaunchEMRConfigLambda.init sample_dumps "app" "Launch"
    (set_environment sample_function_props ∅)
    sample_state_machine tt Omitted Omitted
    (Passed (Some sample_topic)) (Passed (Some sample_topic)).

(** No topic supplied, an environment in the props. *)
Definition sample_launch_without_topics : FunctionProps * Function :=
  LaunchEMRConfigLambda.init sample_dumps "app" "Launch"
    sample_function_props
    sample_state_machine tt Omitted Omitted Omitted Omitted.

(** The success topic supplied, an environment in the props that already
    has the key the constructor sets for it. *)
Definition sample_launch_overriding : FunctionProps * Function :=
  LaunchEMRConfigLambda.init sample_dumps "app" "Launch"
    sample_function_props
    sample_state_machine tt Omitted Omitted
    (Passed (Some sample_topic)) Omitted.

(** ** Python's conversions on samples *)

Example str_int_60 : str_int 60 = "60".
Proof. reflexivity. Qed.

Example str_int_neg : str_int (-5) = "-5".
Proof. reflexivity. Qed.

Example str_int_0 : str_int 0 = "0".
Proof. reflexivity. Qed.

(** ** Lemmas on the store *)

Lemma alloc_lookup_old o w r x :
  heap w !! r = Some x -> heap (alloc o w).2 !! r = Some x.
Proof.
  intros Hr. unfold alloc. simpl.
  rewrite lookup_insert_ne; [done|].
  intros <-.
  pose proof (is_fresh (dom (heap w))) as Hf.
  apply Hf, elem_of_dom. eauto.
Qed.

Lemma alloc_lookup_new o w :
  heap (alloc o w).2 !! (alloc o w).1 = Some o.
Proof. unfold alloc. simpl. apply lookup_insert_eq. Qed.

Lemma alloc_deployments o w :
  deployments (alloc o w).2 = deployments w.
Proof. reflexivity. Qed.

Lemma EmrCode_bind_scope_unbound r c scope w :
  heap w !! r = Some (OCode c) ->
  code_bucket_deployment c = None ->
  let d := {| bd_scope := scope; bd_id := EmrCode.deployment_id c;
              bd_props := code_deployment_props c |} in
  EmrCode.bind_scope r scope w =
    Some (VDict {[ "S3Path" := VStr (EmrCode.s3_path_of c) ]},
          {| heap := <[r := OCode (EmrCode.set_bucket_deployment c d)]> (heap w);
             deployments := deployments w ++ [d] |}).
Proof.
  intros Hr Hn. unfold EmrCode.bind_scope. rewrite Hr, Hn. simpl.
  unfold EmrCode.s3_path. simpl. rewrite lookup_insert_eq. reflexivity.
Qed.

Lemma EmrCode_bind_scope_bound r c d scope w :
  heap w !! r = Some (OCode c) ->
  code_bucket_deployment c = Some d ->
  EmrCode.bind_scope r scope w =
    Some (VDict {[ "S3Path" := VStr (EmrCode.s3_path_of c) ]}, w).
Proof.
  intros Hr Hd. unfold EmrCode.bind_scope. rewrite Hr, Hd.
  unfold EmrCode.s3_path. rewrite Hr. reflexivity.
Qed.

(** A call on a code changes at most that code, by setting its deployment. *)
Lemma EmrCode_bind_scope_evolves self scope w v w' r o :
  EmrCode.bind_scope self scope w = Some (v, w') ->
  heap w !! r = Some o ->
  exists o', heap w' !! r = Some o' /\ evolves o o'.
Proof.
  intros Hb Hr.
  destruct (heap w !! self) as [[c| |]|] eqn:Hs;
    try (unfold EmrCode.bind_scope in Hb; rewrite Hs in Hb; discriminate).
  destruct (code_bucket_deployment c) as [d|] eqn:Hd.
  - rewrite (EmrCode_bind_scope_bound _ _ _ _ _ Hs Hd) in Hb.
    injection Hb as _ <-. exists o. split; [done | constructor].
  - rewrite (EmrCode_bind_scope_unbound _ _ _ _ Hs Hd) in Hb.
    injection Hb as _ <-. simpl.
    destruct (decide (self = r)) as [->|Hne].
    + rewrite lookup_insert_eq. rewrite Hs in Hr. injection Hr as <-.
      eexists. split; [done | by constructor].
    + rewrite lookup_insert_ne by done. exists o. split; [done | constructor].
Qed.

Lemma step_evolves w w' r o :
  step w w' ->
  heap w !! r = Some o ->
  exists o', heap w' !! r = Some o' /\ evolves o o'.
Proof.
  intros Hstep Hr.
  destruct Hstep as
    [ ? ? ? w | ? w | ? ? w | self scope w v w' Hb
    | ? ? ? ? w | self scope w v w' Hb
    | ? ? ? ? ? ? ? w | self scope w v w' Hb ];
    try (exists o; split; [by apply alloc_lookup_old | constructor]).
  - eapply EmrCode_bind_scope_evolves; eauto.
  - unfold EmrBootstrapAction.bind_scope in Hb.
    destruct (EmrBootstrapAction.get self w) as [b|]; [|discriminate].
    simpl in Hb. destruct (boot_code b) as [code|].
    + destruct (EmrCode.bind_scope code scope w) as [[v1 w1]|] eqn:Hc;
        [|discriminate].
      simpl in Hb.
      destruct (EmrBootstrapAction.get self w1); [|discriminate].
      simpl in Hb. injection Hb as _ <-.
      eapply EmrCode_bind_scope_evolves; eauto.
    + simpl in Hb. destruct (EmrBootstrapAction.get self w); [|discriminate].
      simpl in Hb. injection Hb as _ <-. exists o. split; [done | constructor].
  - unfold EmrStep.bind_scope in Hb.
    destruct (EmrStep.get self w) as [s|]; [|discriminate].
    simpl in Hb. destruct (step_code s) as [code|].
    + destruct (EmrCode.bind_scope code scope w) as [[v1 w1]|] eqn:Hc;
        [|discriminate].
      simpl in Hb.
      destruct (EmrStep.get self w1); [|discriminate].
      simpl in Hb. injection Hb as _ <-.
      eapply EmrCode_bind_scope_evolves; eauto.
    + simpl in Hb. destruct (EmrStep.get self w); [|discriminate].
      simpl in Hb. injection Hb as _ <-. exists o. split; [done | constructor].
Qed.

Lemma evolves_trans o1 o2 o3 :
  evolves o1 o2 -> evolves o2 o3 -> evolves o1 o3.
Proof.
  intros H12 H23. destruct H12 as [o|c d Hn]; [done|].
  inversion H23 as [|c' d' Hn' Heq]; subst; [by constructor|].
  simpl in Hn'. discriminate.
Qed.

Lemma steps_evolves w w' r o :
  steps w w' ->
  heap w !! r = Some o ->
  exists o', heap w' !! r = Some o' /\ evolves o o'.
Proof.
  intros Hsteps. revert o.
  induction Hsteps as [w | w w1 w2 Hstep _ IH]; intros o Hr.
  - exists o. split; [done | constructor].
  - destruct (step_evolves _ _ _ _ Hstep Hr) as (o1 & Hr1 & He1).
    destruct (IH _ Hr1) as (o2 & Hr2 & He2).
    exists o2. split; [done | by eapply evolves_trans].
Qed.

Lemma evolves_code c o :
  evolves (OCode c) o ->
  exists c', o = OCode c' /\
    code_deployment_props c' = code_deployment_props c /\
    code_deployment_bucket c' = code_deployment_bucket c /\
    code_deployment_prefix c' = code_deployment_prefix c /\
    code_id c' = code_id c /\
    (forall d, code_bucket_deployment c = Some d ->
               code_bucket_deployment c' = Some d).
Proof.
  intros H. inversion H as [|c0 d Hn]; subst.
  - exists c. repeat split; done.
  - exists (EmrCode.set_bucket_deployment c d).
    repeat split; try done. intros d' Hd'. congruence.
Qed.

Lemma evolves_s3_path c c' :
  evolves (OCode c) (OCode c') -> EmrCode.s3_path_of c' = EmrCode.s3_path_of c.
Proof.
  intros H. apply evolves_code in H as (c1 & Heq & _ & Hb & Hp & _).
  injection Heq as <-. unfold EmrCode.s3_path_of. by rewrite Hb, Hp.
Qed.

Lemma evolves_bootstrap_action b o :
  evolves (OBootstrapAction b) o -> o = OBootstrapAction b.
Proof. intros H. by inversion H. Qed.

Lemma evolves_step s o :
  evolves (OStep s) o -> o = OStep s.
Proof. intros H. by inversion H. Qed.

Lemma steps_code w w' r c :
  steps w w' ->
  heap w !! r = Some (OCode c) ->
  exists c', heap w' !! r = Some (OCode c') /\ evolves (OCode c) (OCode c').
Proof.
  intros Hs Hr.
  destruct (steps_evolves _ _ _ _ Hs Hr) as (o & Ho & He).
  destruct (evolves_code _ _ He) as (c' & -> & _). eauto.
Qed.

Lemma steps_code_ok w w' code :
  steps w w' -> code_ok code w -> code_ok code w'.
Proof.
  destruct code as [r|]; [|done]. intros Hs [c Hc].
  destruct (steps_code _ _ _ _ Hs Hc) as (c' & Hc' & _). by exists c'.
Qed.

(** A call on a code always returns, whatever its state. *)
Lemma EmrCode_bind_scope_returns r c scope w :
  heap w !! r = Some (OCode c) ->
  exists w', EmrCode.bind_scope r scope w =
    Some (VDict {[ "S3Path" := VStr (EmrCode.s3_path_of c) ]}, w').
Proof.
  intros Hr. destruct (code_bucket_deployment c) as [d|] eqn:Hd.
  - eexists. by eapply EmrCode_bind_scope_bound.
  - eexists. by eapply EmrCode_bind_scope_unbound.
Qed.

(** ** The deployment of an [EmrCode] *)

(** C1. The BucketDeployment of an EmrCode is instantiated at most once:
    the constructor adds no resource and leaves the deployment unset; a call
    of bind_scope on a code whose deployment is unset adds exactly one
    resource and sets it; once it is set it stays set through any further
    calls on any objects, and every call of bind_scope on that code, with any
    scope, returns and leaves the world (and so the resources) as it is. *)
Theorem EmrCode_deployment_at_most_once :
  (forall props id w,
     deployments (EmrCode.init props id w).2 = deployments w /\
     unbound (EmrCode.init props id w).1 (EmrCode.init props id w).2) /\
  (forall self scope w,
     unbound self w ->
     exists v d w',
       EmrCode.bind_scope self scope w = Some (v, w') /\
       deployments w' = deployments w ++ [d] /\
       bound self d w') /\
  (forall self d w w',
     bound self d w ->
     steps w w' ->
     bound self d w' /\
     forall scope, exists v, EmrCode.bind_scope self scope w' = Some (v, w')).
Proof.
  split; [|split].
  - intros props id w. split; [apply alloc_deployments|].
    eexists. split; [apply alloc_lookup_new | reflexivity].
  - intros self scope w (c & Hc & Hn).
    pose proof (EmrCode_bind_scope_unbound self c scope w Hc Hn) as Hb.
    simpl in Hb. do 3 eexists. split; [exact Hb|]. split; [reflexivity|].
    eexists. split; [apply lookup_insert_eq | reflexivity].
  - intros self d w w' (c & Hc & Hd) Hs.
    destruct (steps_code _ _ _ _ Hs Hc) as (c' & Hc' & He).
    destruct (evolves_code _ _ He) as (c1 & Heq & _ & _ & _ & _ & Hk).
    injection Heq as <-. specialize (Hk _ Hd). split.
    + by exists c'.
    + intros scope. eexists. by eapply EmrCode_bind_scope_bound.
Qed.

Lemma EmrCode_deployment_at_most_once_witness :
  let w := (EmrCode.init sample_props Omitted empty_world).2 in
  let self := (EmrCode.init sample_props Omitted empty_world).1 in
  unbound self w /\
  exists v d w',
    EmrCode.bind_scope self "app" w = Some (v, w') /\
    deployments w' = deployments w ++ [d] /\
    bound self d w'.
Proof.
  assert (Hu : unbound (EmrCode.init sample_props Omitted empty_world).1
                 (EmrCode.init sample_props Omitted empty_world).2).
  { eexists. split; [apply alloc_lookup_new | reflexivity]. }
  split; [exact Hu|].
  exact (proj1 (proj2 EmrCode_deployment_at_most_once) _ "app" _ Hu).
Defined.

Lemma EmrCode_witness_lookup :
  heap (EmrCode.init sample_props Omitted empty_world).2
    !! (EmrCode.init sample_props Omitted empty_world).1
  = Some (OCode {|
      code_deployment_props := sample_props;
      code_deployment_bucket := sample_bucket;
      code_deployment_prefix := Some "emr/steps";
      code_id := None;
      code_bucket_deployment := None |}).
Proof. apply alloc_lookup_new. Defined.

(** The result of a call on a code after any calls, and its [s3_path]
    around the call. *)
Lemma EmrCode_bind_scope_after_steps self c w w' scope :
  heap w !! self = Some (OCode c) ->
  steps w w' ->
  exists w'',
    EmrCode.bind_scope self scope w' =
      Some (VDict {[ "S3Path" := VStr (EmrCode.s3_path_of c) ]}, w'') /\
    EmrCode.s3_path self w = Some (EmrCode.s3_path_of c) /\
    EmrCode.s3_path self w' = Some (EmrCode.s3_path_of c) /\
    EmrCode.s3_path self w'' = Some (EmrCode.s3_path_of c).
Proof.
  intros Hc Hs.
  destruct (steps_code _ _ _ _ Hs Hc) as (c' & Hc' & He).
  destruct (EmrCode_bind_scope_returns self c' scope w' Hc') as (w'' & Hb).
  assert (Hs' : steps w' w'').
  { apply rtc_once. econstructor 4. exact Hb. }
  destruct (steps_code _ _ _ _ Hs' Hc') as (c'' & Hc'' & He').
  exists w''. rewrite Hb. unfold EmrCode.s3_path. rewrite Hc, Hc', Hc''.
  rewrite (evolves_s3_path _ _ He'), (evolves_s3_path _ _ He). done.
Qed.

(** C8. Every call of bind_scope on an EmrCode, with any scope and after any
    number of calls on any objects, returns the mapping {'S3Path': s3_path},
    the same at every call, and the s3_path property is what it was, before
    and after the call. *)
Theorem EmrCode_bind_scope_idempotent self c w w' scope :
  heap w !! self = Some (OCode c) ->
  steps w w' ->
  exists w'',
    EmrCode.bind_scope self scope w' =
      Some (VDict {[ "S3Path" := VStr (EmrCode.s3_path_of c) ]}, w'') /\
    EmrCode.s3_path self w = Some (EmrCode.s3_path_of c) /\
    EmrCode.s3_path self w' = Some (EmrCode.s3_path_of c) /\
    EmrCode.s3_path self w'' = Some (EmrCode.s3_path_of c).
Proof. apply EmrCode_bind_scope_after_steps. Qed.

Lemma EmrCode_bind_scope_idempotent_witness :
  let w := (EmrCode.init sample_props Omitted empty_world).2 in
  let self := (EmrCode.init sample_props Omitted empty_world).1 in
  exists w'',
    EmrCode.bind_scope self "app" w =
      Some (VDict {[ "S3Path" := VStr "s3://artifacts/emr/steps" ]}, w'') /\
    EmrCode.s3_path self w = Some "s3://artifacts/emr/steps" /\
    EmrCode.s3_path self w = Some "s3://artifacts/emr/steps" /\
    EmrCode.s3_path self w'' = Some "s3://artifacts/emr/steps".
Proof.
  exact (EmrCode_bind_scope_idempotent _ _ _ _ "app"
           EmrCode_witness_lookup (rtc_refl _ _)).
Defined.

(** C6. For an EmrCode constructed from deployment props, at any later time
    the s3_path property is 's3://', the name of the props' destination
    bucket, '/', and the props' destination key prefix as the f-string
    formats it (the prefix itself when there is one), and every call of
    bind_scope returns a mapping whose 'S3Path' entry is that string. *)
Theorem EmrCode_s3_path_bucket_uri props id w0 w scope :
  let self := (EmrCode.init props id w0).1 in
  let uri := "s3://" +:+ bucket_name (destination_bucket props) +:+ "/"
               +:+ format_str (destination_key_prefix props) in
  steps (EmrCode.init props id w0).2 w ->
  EmrCode.s3_path self w = Some uri /\
  (forall prefix, destination_key_prefix props = Some prefix ->
     uri = "s3://" +:+ bucket_name (destination_bucket props) +:+ "/"
             +:+ prefix) /\
  exists v w',
    EmrCode.bind_scope self scope w = Some (v, w') /\
    entry "S3Path" v = Some (VStr uri).
Proof.
  intros self uri Hs.
  pose proof (alloc_lookup_new
    (OCode {|
      code_deployment_props := props;
      code_deployment_bucket := destination_bucket props;
      code_deployment_prefix := destination_key_prefix props;
      code_id := kwarg_default None id;
      code_bucket_deployment := None |}) w0) as Hc.
  destruct (EmrCode_bind_scope_after_steps _ _ _ _ scope Hc Hs)
    as (w' & Hb & _ & Hp & _).
  split; [exact Hp|]. split.
  - intros prefix Hpre. unfold uri. by rewrite Hpre.
  - exists (VDict {[ "S3Path" := VStr uri ]}), w'. split; [exact Hb|].
    simpl. apply lookup_singleton_eq.
Qed.

Lemma EmrCode_s3_path_bucket_uri_witness :
  let w := (EmrCode.init sample_props (Passed (Some "steps")) empty_world).2 in
  let self := (EmrCode.init sample_props (Passed (Some "steps")) empty_world).1 in
  EmrCode.s3_path self w = Some "s3://artifacts/emr/steps" /\
  (forall prefix, Some "emr/steps" = Some prefix ->
     "s3://artifacts/emr/steps" = "s3://artifacts/" +:+ prefix) /\
  exists v w',
    EmrCode.bind_scope self "app" w = Some (v, w') /\
    entry "S3Path" v = Some (VStr "s3://artifacts/emr/steps").
Proof.
  exact (EmrCode_s3_path_bucket_uri sample_props (Passed (Some "steps"))
           empty_world _ "app" (rtc_refl _ _)).
Defined.

(** ** Bootstrap actions and steps *)

Lemma args_or_empty (args : kwarg (option (list string))) :
  (if truthy_list (kwarg_default None args)
   then value_of_opt_strs (kwarg_default None args)
   else VList [])
  = value_of_strs (supplied_or_empty args).
Proof. by destruct args as [|[[|x l]|]]. Qed.

Lemma properties_or_empty (properties : kwarg (option (list value))) :
  (if truthy_list (kwarg_default None properties)
   then value_of_opt_list (kwarg_default None properties)
   else VList [])
  = VList (supplied_or_empty properties).
Proof. by destruct properties as [|[[|x l]|]]. Qed.

Lemma StepFailureAction_name_value a :
  StepFailureAction_name a = StepFailureAction_value a.
Proof. by destruct a. Qed.

(** A call on a bootstrap action returns the mapping of its attributes; the
    world afterwards is the one the call on its code leaves. *)
Lemma EmrBootstrapAction_bind_scope_returns self b scope w :
  heap w !! self = Some (OBootstrapAction b) ->
  code_ok (boot_code b) w ->
  exists w',
    EmrBootstrapAction.bind_scope self scope w =
      Some (EmrBootstrapAction.mapping b, w') /\
    heap w' !! self = Some (OBootstrapAction b) /\
    match boot_code b with
    | Some code => exists v, EmrCode.bind_scope code scope w = Some (v, w')
    | None => w' = w
    end.
Proof.
  intros Hb Hok. unfold EmrBootstrapAction.bind_scope, EmrBootstrapAction.get.
  rewrite Hb. simpl. destruct (boot_code b) as [code|].
  - destruct Hok as [c Hc].
    destruct (EmrCode_bind_scope_returns code c scope w Hc) as (w' & Hcall).
    destruct (EmrCode_bind_scope_evolves _ _ _ _ _ _ _ Hcall Hb)
      as (o & Ho & He).
    apply evolves_bootstrap_action in He as ->.
    exists w'. rewrite Hcall. simpl. rewrite Ho. simpl. eauto.
  - exists w. simpl. rewrite Hb. simpl. eauto.
Qed.

(** The same for a step. *)
Lemma EmrStep_bind_scope_returns self s scope w :
  heap w !! self = Some (OStep s) ->
  code_ok (step_code s) w ->
  exists w',
    EmrStep.bind_scope self scope w = Some (EmrStep.mapping s, w') /\
    heap w' !! self = Some (OStep s) /\
    match step_code s with
    | Some code => exists v, EmrCode.bind_scope code scope w = Some (v, w')
    | None => w' = w
    end.
Proof.
  intros Hs Hok. unfold EmrStep.bind_scope, EmrStep.get.
  rewrite Hs. simpl. destruct (step_code s) as [code|].
  - destruct Hok as [c Hc].
    destruct (EmrCode_bind_scope_returns code c scope w Hc) as (w' & Hcall).
    destruct (EmrCode_bind_scope_evolves _ _ _ _ _ _ _ Hcall Hs)
      as (o & Ho & He).
    apply evolves_step in He as ->.
    exists w'. rewrite Hcall. simpl. rewrite Ho. simpl. eauto.
  - exists w. simpl. rewrite Hs. simpl. eauto.
Qed.

Lemma steps_bootstrap_action w w' r b :
  steps w w' ->
  heap w !! r = Some (OBootstrapAction b) ->
  heap w' !! r = Some (OBootstrapAction b).
Proof.
  intros Hs Hr. destruct (steps_evolves _ _ _ _ Hs Hr) as (o & Ho & He).
  by apply evolves_bootstrap_action in He as ->.
Qed.

Lemma steps_step w w' r s :
  steps w w' ->
  heap w !! r = Some (OStep s) ->
  heap w' !! r = Some (OStep s).
Proof.
  intros Hs Hr. destruct (steps_evolves _ _ _ _ Hs Hr) as (o & Ho & He).
  by apply evolves_step in He as ->.
Qed.

(** C7. A bootstrap action or a step keeps every attribute through any
    number of calls of bind_scope, with any scopes, on it or on any other
    object; every call on it returns, and returns the mapping of the
    attributes it had at the start, so all calls return equal mappings. *)
Theorem bind_scope_keeps_value_objects :
  (forall self b w w' scope,
     heap w !! self = Some (OBootstrapAction b) ->
     code_ok (boot_code b) w ->
     steps w w' ->
     heap w' !! self = Some (OBootstrapAction b) /\
     exists w'',
       EmrBootstrapAction.bind_scope self scope w' =
         Some (EmrBootstrapAction.mapping b, w'') /\
       heap w'' !! self = Some (OBootstrapAction b) /\
       steps w w'') /\
  (forall self s w w' scope,
     heap w !! self = Some (OStep s) ->
     code_ok (step_code s) w ->
     steps w w' ->
     heap w' !! self = Some (OStep s) /\
     exists w'',
       EmrStep.bind_scope self scope w' = Some (EmrStep.mapping s, w'') /\
       heap w'' !! self = Some (OStep s) /\
       steps w w'').
Proof.
  split.
  - intros self b w w' scope Hb Hok Hs.
    pose proof (steps_bootstrap_action _ _ _ _ Hs Hb) as Hb'.
    split; [exact Hb'|].
    destruct (EmrBootstrapAction_bind_scope_returns self b scope w' Hb'
                (steps_code_ok _ _ _ Hs Hok)) as (w'' & Hcall & Hb'' & _).
    exists w''. repeat split; try done.
    eapply rtc_r; [exact Hs|]. econstructor 6. exact Hcall.
  - intros self s w w' scope Hst Hok Hs.
    pose proof (steps_step _ _ _ _ Hs Hst) as Hst'.
    split; [exact Hst'|].
    destruct (EmrStep_bind_scope_returns self s scope w' Hst'
                (steps_code_ok _ _ _ Hs Hok)) as (w'' & Hcall & Hst'' & _).
    exists w''. repeat split; try done.
    eapply rtc_r; [exact Hs|]. econstructor 8. exact Hcall.
Qed.

Lemma sample_code_lookup :
  exists c, heap sample_code.2 !! sample_code.1 = Some (OCode c).
Proof. eexists. apply alloc_lookup_new. Defined.

Lemma sample_step_code_ok :
  code_ok (Some sample_code.1) sample_step.2.
Proof.
  destruct sample_code_lookup as [c Hc]. exists c.
  by apply alloc_lookup_old.
Defined.

Lemma sample_bootstrap_action_code_ok :
  code_ok (Some sample_code.1) sample_bootstrap_action.2.
Proof.
  destruct sample_step_code_ok as [c Hc]. exists c.
  by apply alloc_lookup_old.
Defined.

Lemma bind_scope_keeps_value_objects_witness :
  (exists b w'',
     EmrBootstrapAction.bind_scope sample_bootstrap_action.1 "app"
       sample_bootstrap_action.2 = Some (EmrBootstrapAction.mapping b, w'') /\
     heap w'' !! sample_bootstrap_action.1 = Some (OBootstrapAction b)) /\
  (exists s w'',
     EmrStep.bind_scope sample_step.1 "app" sample_step.2 =
       Some (EmrStep.mapping s, w'') /\
     heap w'' !! sample_step.1 = Some (OStep s)).
Proof.
  split.
  - destruct (proj1 bind_scope_keeps_value_objects
                sample_bootstrap_action.1 _ _ _ "app"
                (alloc_lookup_new _ _) sample_bootstrap_action_code_ok
                (rtc_refl _ sample_bootstrap_action.2))
      as (_ & w'' & Hcall & Hb & _).
    eauto.
  - destruct (proj2 bind_scope_keeps_value_objects
                sample_step.1 _ _ _ "app"
                (alloc_lookup_new _ _) sample_step_code_ok
                (rtc_refl _ sample_step.2))
      as (_ & w'' & Hcall & Hs & _).
    eauto.
Defined.

Lemma alloc_code_ok o w code :
  code_ok code w -> code_ok code (alloc o w).2.
Proof.
  destruct code as [r|]; [|done]. intros [c Hc]. exists c.
  by apply alloc_lookup_old.
Qed.

(** C4. For an EmrStep constructed with any arguments, every later call of
    bind_scope returns exactly the mapping with 'Name', 'ActionOnFailure'
    (the value of the enum member) and 'HadoopJarStep' holding 'Jar',
    'MainClass', 'Args' and 'Properties', the last two being the constructor's
    lists when supplied and the empty list when omitted or None; and when a
    code was supplied, the world the call leaves is the one left by
    bind_scope of that code, called with the same scope. *)
Theorem EmrStep_bind_scope_mapping
    name jar main_class args action properties code w0 w scope :
  code_ok (kwarg_default None code) w0 ->
  steps (EmrStep.init name jar main_class args action properties code w0).2 w ->
  exists w',
    EmrStep.bind_scope
      (EmrStep.init name jar main_class args action properties code w0).1
      scope w =
      Some (VDict {[
        "Name" := VStr name;
        "ActionOnFailure" :=
          VStr (StepFailureAction_value (kwarg_default CONTINUE action));
        "HadoopJarStep" := VDict {[
          "Jar" := VStr jar;
          "MainClass" := value_of_opt_str (kwarg_default None main_class);
          "Args" := value_of_strs (supplied_or_empty args);
          "Properties" := VList (supplied_or_empty properties)
        ]}
      ]}, w') /\
    match kwarg_default None code with
    | Some c => exists v, EmrCode.bind_scope c scope w = Some (v, w')
    | None => w' = w
    end.
Proof.
  intros Hok Hs. unfold EmrStep.init in *.
  pose proof (steps_step _ _ _ _ Hs (alloc_lookup_new _ _)) as Hself.
  pose proof (steps_code_ok _ _ _ Hs (alloc_code_ok _ _ _ Hok)) as Hok'.
  destruct (EmrStep_bind_scope_returns _ _ scope _ Hself Hok')
    as (w' & Hcall & _ & Hcode).
  exists w'. split; [|exact Hcode].
  rewrite Hcall. unfold EmrStep.mapping. simpl.
  by rewrite args_or_empty, properties_or_empty, StepFailureAction_name_value.
Qed.

Lemma EmrStep_bind_scope_mapping_witness :
  exists w',
    EmrStep.bind_scope sample_step.1 "app" sample_step.2 =
      Some (VDict {[
        "Name" := VStr "wordcount";
        "ActionOnFailure" := VStr "CONTINUE";
        "HadoopJarStep" := VDict {[
          "Jar" := VStr "command-runner.jar";
          "MainClass" := VStr "WordCount";
          "Args" := VList [VStr "in"; VStr "out"];
          "Properties" := VList []
        ]}
      ]}, w') /\
    exists v, EmrCode.bind_scope sample_code.1 "app" sample_step.2 = Some (v, w').
Proof.
  exact (EmrStep_bind_scope_mapping "wordcount" "command-runner.jar"
           (Passed (Some "WordCount")) (Passed (Some ["in"; "out"]))
           Omitted Omitted (Passed (Some sample_code.1)) sample_code.2
           _ "app" sample_code_lookup (rtc_refl _ _)).
Defined.

(** C5. For an EmrBootstrapAction constructed with any arguments, every later
    call of bind_scope returns exactly the mapping with 'Name' and
    'ScriptBootstrapAction' holding 'Path' and 'Args', the latter being the
    constructor's list when supplied and the empty list when omitted or None;
    and when a code was supplied, the world the call leaves is the one left
    by bind_scope of that code, called with the same scope. *)
Theorem EmrBootstrapAction_bind_scope_mapping
    name path args code w0 w scope :
  code_ok (kwarg_default None code) w0 ->
  steps (EmrBootstrapAction.init name path args code w0).2 w ->
  exists w',
    EmrBootstrapAction.bind_scope
      (EmrBootstrapAction.init name path args code w0).1 scope w =
      Some (VDict {[
        "Name" := VStr name;
        "ScriptBootstrapAction" := VDict {[
          "Path" := VStr path;
          "Args" := value_of_strs (supplied_or_empty args)
        ]}
      ]}, w') /\
    match kwarg_default None code with
    | Some c => exists v, EmrCode.bind_scope c scope w = Some (v, w')
    | None => w' = w
    end.
Proof.
  intros Hok Hs. unfold EmrBootstrapAction.init in *.
  pose proof (steps_bootstrap_action _ _ _ _ Hs (alloc_lookup_new _ _)) as Hself.
  pose proof (steps_code_ok _ _ _ Hs (alloc_code_ok _ _ _ Hok)) as Hok'.
  destruct (EmrBootstrapAction_bind_scope_returns _ _ scope _ Hself Hok')
    as (w' & Hcall & _ & Hcode).
  exists w'. split; [|exact Hcode].
  rewrite Hcall. unfold EmrBootstrapAction.mapping. simpl.
  by rewrite args_or_empty.
Qed.

Lemma EmrBootstrapAction_bind_scope_mapping_witness :
  exists w',
    EmrBootstrapAction.bind_scope sample_bootstrap_action.1 "app"
      sample_bootstrap_action.2 =
      Some (VDict {[
        "Name" := VStr "install";
        "ScriptBootstrapAction" := VDict {[
          "Path" := VStr "s3://artifacts/emr/steps/install.sh";
          "Args" := VList []
        ]}
      ]}, w') /\
    exists v,
      EmrCode.bind_scope sample_code.1 "app" sample_bootstrap_action.2
        = Some (v, w').
Proof.
  exact (EmrBootstrapAction_bind_scope_mapping "install"
           "s3://artifacts/emr/steps/install.sh" Omitted
           (Passed (Some sample_code.1)) sample_step.2 _ "app"
           sample_step_code_ok (rtc_refl _ _)).
Defined.

Lemma EmrStep_mapping_action s :
  entry "ActionOnFailure" (EmrStep.mapping s)
  = Some (VStr (StepFailureAction_name (step_action_on_failure s))).
Proof. reflexivity. Qed.

(** C10. For an EmrStep constructed with any arguments, every later call of
    bind_scope returns a mapping whose 'ActionOnFailure' entry is the name of
    the step's StepFailureAction member; the name of every member is its
    value; the entry is one of 'TERMINATE_JOB_FLOW', 'TERMINATE_CLUSTER',
    'CANCEL_AND_WAIT', 'CONTINUE'; and it is 'CONTINUE' when
    action_on_failure was omitted. *)
Theorem EmrStep_action_on_failure_entry
    name jar main_class args action properties code w0 w scope :
  code_ok (kwarg_default None code) w0 ->
  steps (EmrStep.init name jar main_class args action properties code w0).2 w ->
  exists v w',
    EmrStep.bind_scope
      (EmrStep.init name jar main_class args action properties code w0).1
      scope w = Some (v, w') /\
    entry "ActionOnFailure" v =
      Some (VStr (StepFailureAction_name (kwarg_default CONTINUE action))) /\
    (forall a, StepFailureAction_name a = StepFailureAction_value a) /\
    StepFailureAction_name (kwarg_default CONTINUE action) ∈
      ["TERMINATE_JOB_FLOW"; "TERMINATE_CLUSTER"; "CANCEL_AND_WAIT"; "CONTINUE"] /\
    (action = Omitted -> entry "ActionOnFailure" v = Some (VStr "CONTINUE")).
Proof.
  intros Hok Hs. unfold EmrStep.init in *.
  pose proof (steps_step _ _ _ _ Hs (alloc_lookup_new _ _)) as Hself.
  pose proof (steps_code_ok _ _ _ Hs (alloc_code_ok _ _ _ Hok)) as Hok'.
  destruct (EmrStep_bind_scope_returns _ _ scope _ Hself Hok')
    as (w' & Hcall & _ & _).
  eexists _, w'. split; [exact Hcall|].
  rewrite EmrStep_mapping_action. simpl.
  split; [done|]. split; [apply StepFailureAction_name_value|]. split.
  - destruct (kwarg_default CONTINUE action); simpl; set_solver.
  - by intros ->.
Qed.

Lemma EmrStep_action_on_failure_entry_witness :
  exists v w',
    EmrStep.bind_scope sample_step.1 "app" sample_step.2 = Some (v, w') /\
    entry "ActionOnFailure" v = Some (VStr "CONTINUE").
Proof.
  destruct (EmrStep_action_on_failure_entry "wordcount" "command-runner.jar"
              (Passed (Some "WordCount")) (Passed (Some ["in"; "out"]))
              Omitted Omitted (Passed (Some sample_code.1)) sample_code.2
              _ "app" sample_code_lookup (rtc_refl _ _))
    as (v & w' & Hcall & Hentry & _).
  exists v, w'. split; [exact Hcall | exact Hentry].
Defined.

(** ** The step function Lambdas *)

(** C3. Whatever the scope and id, the initial policy of each of the three
    functions of StepFunctionLambdas is one ALLOW statement on every resource
    with a fixed list of actions: RunJobFlow, ListClusters and ListSteps for
    run_job_flow, AddJobFlowSteps for add_job_flow_steps, and DescribeCluster,
    DescribeStep and cloudwatch:PutMetricData for check_step_status. *)
Theorem StepFunctionLambdas_initial_policies
    (_lambda_path : string -> string) scope id :
  let self := StepFunctionLambdas.init _lambda_path scope id in
  initial_policy (StepFunctionLambdas.run_job_flow self) =
    [ {| effect := ALLOW;
         actions := [ "elasticmapreduce:RunJobFlow";
                      "elasticmapreduce:ListClusters";
                      "elasticmapreduce:ListSteps" ];
         resources := ["*"] |} ] /\
  initial_policy (StepFunctionLambdas.add_job_flow_steps self) =
    [ {| effect := ALLOW;
         actions := [ "elasticmapreduce:AddJobFlowSteps" ];
         resources := ["*"] |} ] /\
  initial_policy (StepFunctionLambdas.check_step_status self) =
    [ {| effect := ALLOW;
         actions := [ "elasticmapreduce:DescribeCluster";
                      "elasticmapreduce:DescribeStep";
                      "cloudwatch:PutMetricData" ];
         resources := ["*"] |} ].
Proof. repeat split. Qed.

(** ** The environment of the launch function *)

Section launch_environment.

Context {Json : Type} (json_dumps : Json -> string).

Lemma dict_with_kwargs_lookup {V : Type} (base kwargs : gmap string V) k :
  dict_with_kwargs base kwargs !! k =
    match kwargs !! k with
    | Some v => Some v
    | None => base !! k
    end.
Proof.
  unfold dict_with_kwargs. rewrite lookup_union.
  by destruct (kwargs !! k), (base !! k).
Qed.

(** The environment of the function is the merge, and the props hold it too. *)
Lemma init_environment scope id props step_function cluster_config
    wait_time fail_if_running success_topic failure_topic :
  let r := LaunchEMRConfigLambda.init json_dumps scope id props step_function cluster_config
             wait_time fail_if_running success_topic failure_topic in
  let merged :=
    dict_with_kwargs (default ∅ (fp_environment props))
      (LaunchEMRConfigLambda.environment json_dumps step_function cluster_config
         (kwarg_default (Some 60%Z) wait_time)
         (kwarg_default (Some false) fail_if_running)
         (kwarg_default None success_topic)
         (kwarg_default None failure_topic)) in
  environment_of r.2 = merged /\ fp_environment r.1 = Some merged.
Proof. done. Qed.

(** The entries of the local [environment]. *)
Lemma environment_lookup step_function cluster_config wait_time fail_if_running
    success_topic failure_topic k :
  LaunchEMRConfigLambda.environment json_dumps step_function cluster_config
    wait_time fail_if_running success_topic failure_topic !! k =
  if decide (k = "DEFAULT_FAILURE_TOPIC_ARN") then topic_arn <$> failure_topic
  else if decide (k = "DEFAULT_SUCCESS_TOPIC_ARN") then topic_arn <$> success_topic
  else if decide (k = "DEFAULT_STEP_FUNCTION_ARN")
       then Some (state_machine_arn step_function)
  else if decide (k = "DEFAULT_CLUSTER_CONFIG")
       then Some (json_dumps cluster_config)
  else if decide (k = "DEFAULT_STEP_FUNCTION_WAIT_TIME")
       then Some (str_opt_int wait_time)
  else if decide (k = "DEFAULT_FAIL_IF_JOB_RUNNING")
       then Some (str_opt_bool fail_if_running)
  else None.
Proof.
  unfold LaunchEMRConfigLambda.environment.
  destruct failure_topic as [ft|], success_topic as [st|]; simpl;
    repeat case_decide; subst; simplify_map_eq; done.
Qed.

Lemma supplied_default {A : Type} (k : kwarg (option A)) :
  supplied k <-> is_Some (kwarg_default None k).
Proof.
  split.
  - intros [a ->]. by exists a.
  - intros [a Ha]. destruct k as [|[a'|]]; simpl in Ha; try discriminate.
    by exists a'.
Qed.

Lemma init_lookup scope id props step_function cluster_config
    wait_time fail_if_running success_topic failure_topic k :
  environment_of
    (LaunchEMRConfigLambda.init json_dumps scope id props step_function
       cluster_config wait_time fail_if_running
       success_topic failure_topic).2 !! k =
  match LaunchEMRConfigLambda.environment json_dumps step_function
          cluster_config
          (kwarg_default (Some 60%Z) wait_time)
          (kwarg_default (Some false) fail_if_running)
          (kwarg_default None success_topic)
          (kwarg_default None failure_topic) !! k with
  | Some v => Some v
  | None => default ∅ (fp_environment props) !! k
  end.
Proof.
  rewrite (proj1 (init_environment _ _ _ _ _ _ _ _ _)).
  apply dict_with_kwargs_lookup.
Qed.

(** The entries of the local [environment] at the keys of interest. *)
Lemma environment_entries step_function cluster_config wait_time
    fail_if_running success_topic failure_topic :
  let environment :=
    LaunchEMRConfigLambda.environment json_dumps step_function cluster_config
      wait_time fail_if_running success_topic failure_topic in
  environment !! "DEFAULT_STEP_FUNCTION_ARN"
    = Some (state_machine_arn step_function) /\
  environment !! "DEFAULT_CLUSTER_CONFIG" = Some (json_dumps cluster_config) /\
  environment !! "DEFAULT_STEP_FUNCTION_WAIT_TIME"
    = Some (str_opt_int wait_time) /\
  environment !! "DEFAULT_FAIL_IF_JOB_RUNNING"
    = Some (str_opt_bool fail_if_running) /\
  environment !! "DEFAULT_SUCCESS_TOPIC_ARN" = (topic_arn <$> success_topic) /\
  environment !! "DEFAULT_FAILURE_TOPIC_ARN" = (topic_arn <$> failure_topic) /\
  environment !! "SUCCESS_TOPIC_ARN" = None /\
  environment !! "FAILURE_TOPIC_ARN" = None.
Proof.
  intros environment. unfold environment.
  rewrite !environment_lookup. repeat split.
Qed.

(** The keys of the local [environment]. *)
Lemma environment_keys step_function cluster_config wait_time
    fail_if_running (success_topic failure_topic : option Topic) k :
  is_Some (LaunchEMRConfigLambda.environment json_dumps step_function
             cluster_config wait_time fail_if_running
             success_topic failure_topic !! k) <->
  k ∈ [ "DEFAULT_STEP_FUNCTION_ARN"; "DEFAULT_CLUSTER_CONFIG";
        "DEFAULT_STEP_FUNCTION_WAIT_TIME"; "DEFAULT_FAIL_IF_JOB_RUNNING" ] \/
  (k = "DEFAULT_SUCCESS_TOPIC_ARN" /\ is_Some success_topic) \/
  (k = "DEFAULT_FAILURE_TOPIC_ARN" /\ is_Some failure_topic).
Proof.
  unfold LaunchEMRConfigLambda.environment.
  rewrite !elem_of_cons, elem_of_nil.
  destruct success_topic as [st|], failure_topic as [ft|];
    rewrite ?lookup_insert_is_Some', lookup_singleton_is_Some, ?is_Some_alt;
    simpl; intuition (subst; auto).
Qed.

(** C2, as amended. The environment of the function always holds the four
    base keys: the state machine's ARN, the cluster config written by
    json.dumps, and str of the wait time and of the fail-if-running flag
    (60 and False when omitted). The constructor sets
    DEFAULT_SUCCESS_TOPIC_ARN and DEFAULT_FAILURE_TOPIC_ARN, to the topic's
    ARN, if and only if the topic is supplied; so the function's environment
    holds such a key when the topic is supplied, and otherwise holds it only
    as the props environment did. The constructor sets neither
    SUCCESS_TOPIC_ARN nor FAILURE_TOPIC_ARN. *)
Theorem LaunchEMRConfigLambda_environment scope id props step_function
    cluster_config wait_time fail_if_running success_topic failure_topic :
  let derived :=
    LaunchEMRConfigLambda.environment json_dumps step_function cluster_config
      (kwarg_default (Some 60%Z) wait_time)
      (kwarg_default (Some false) fail_if_running)
      (kwarg_default None success_topic)
      (kwarg_default None failure_topic) in
  let props_env := default ∅ (fp_environment props) in
  let env :=
    environment_of
      (LaunchEMRConfigLambda.init json_dumps scope id props step_function
         cluster_config wait_time fail_if_running
         success_topic failure_topic).2 in
  env !! "DEFAULT_STEP_FUNCTION_ARN" = Some (state_machine_arn step_function) /\
  env !! "DEFAULT_CLUSTER_CONFIG" = Some (json_dumps cluster_config) /\
  env !! "DEFAULT_STEP_FUNCTION_WAIT_TIME" =
    Some (str_opt_int (kwarg_default (Some 60%Z) wait_time)) /\
  env !! "DEFAULT_FAIL_IF_JOB_RUNNING" =
    Some (str_opt_bool (kwarg_default (Some false) fail_if_running)) /\
  (is_Some (derived !! "DEFAULT_SUCCESS_TOPIC_ARN") <-> supplied success_topic) /\
  (is_Some (derived !! "DEFAULT_FAILURE_TOPIC_ARN") <-> supplied failure_topic) /\
  env !! "DEFAULT_SUCCESS_TOPIC_ARN" =
    match kwarg_default None success_topic with
    | Some topic => Some (topic_arn topic)
    | None => props_env !! "DEFAULT_SUCCESS_TOPIC_ARN"
    end /\
  env !! "DEFAULT_FAILURE_TOPIC_ARN" =
    match kwarg_default None failure_topic with
    | Some topic => Some (topic_arn topic)
    | None => props_env !! "DEFAULT_FAILURE_TOPIC_ARN"
    end /\
  derived !! "SUCCESS_TOPIC_ARN" = None /\
  derived !! "FAILURE_TOPIC_ARN" = None /\
  env !! "SUCCESS_TOPIC_ARN" = props_env !! "SUCCESS_TOPIC_ARN" /\
  env !! "FAILURE_TOPIC_ARN" = props_env !! "FAILURE_TOPIC_ARN".
Proof.
  intros derived props_env env. subst derived props_env env.
  rewrite !init_lookup, !supplied_default.
  destruct (environment_entries step_function cluster_config
              (kwarg_default (Some 60%Z) wait_time)
              (kwarg_default (Some false) fail_if_running)
              (kwarg_default None success_topic)
              (kwarg_default None failure_topic))
    as (-> & -> & -> & -> & -> & -> & -> & ->).
  rewrite !fmap_is_Some.
  repeat split; try done.
  - by destruct (kwarg_default None success_topic).
  - by destruct (kwarg_default None failure_topic).
Qed.

(** C9. In the environment of the function, a key of the constructor's own
    environment has the constructor's value, whatever the props environment
    held for it, and every other key is as in the props environment: present
    with the same value, or absent. The constructor's keys are the four base
    keys and the DEFAULT_ topic key of each supplied topic. *)
Theorem LaunchEMRConfigLambda_environment_merge scope id props step_function
    cluster_config wait_time fail_if_running success_topic failure_topic k :
  let derived :=
    LaunchEMRConfigLambda.environment json_dumps step_function cluster_config
      (kwarg_default (Some 60%Z) wait_time)
      (kwarg_default (Some false) fail_if_running)
      (kwarg_default None success_topic)
      (kwarg_default None failure_topic) in
  let props_env := default ∅ (fp_environment props) in
  let env :=
    environment_of
      (LaunchEMRConfigLambda.init json_dumps scope id props step_function
         cluster_config wait_time fail_if_running
         success_topic failure_topic).2 in
  (forall v, derived !! k = Some v -> env !! k = Some v) /\
  (derived !! k = None -> env !! k = props_env !! k) /\
  (is_Some (derived !! k) <->
     k ∈ [ "DEFAULT_STEP_FUNCTION_ARN"; "DEFAULT_CLUSTER_CONFIG";
           "DEFAULT_STEP_FUNCTION_WAIT_TIME"; "DEFAULT_FAIL_IF_JOB_RUNNING" ] \/
     (k = "DEFAULT_SUCCESS_TOPIC_ARN" /\ supplied success_topic) \/
     (k = "DEFAULT_FAILURE_TOPIC_ARN" /\ supplied failure_topic)).
Proof.
  intros derived props_env env. subst derived props_env env.
  rewrite init_lookup. split; [|split].
  - by intros v ->.
  - by intros ->.
  - rewrite environment_keys, !supplied_default. done.
Qed.

End launch_environment.

(** The rule as the specification words it fails when a topic is supplied:
    the function's environment has no SUCCESS_TOPIC_ARN, the constructor's
    key being DEFAULT_SUCCESS_TOPIC_ARN. *)
Lemma spec_environment_rule_fails :
  ~ spec_environment_rule (environment_of sample_launch_with_topics.2)
      (Passed (Some sample_topic)) (Passed (Some sample_topic)).
Proof.
  intros (_ & _ & _ & _ & [_ Hsupplied] & _).
  destruct Hsupplied as [arn Harn]; [by exists sample_topic|].
  vm_compute in Harn. discriminate.
Qed.

(** With the key the constructor does use, "only if supplied" still needs
    the props environment not to hold the key: here no topic is supplied and
    the function's environment has DEFAULT_SUCCESS_TOPIC_ARN, from the props. *)
Example topic_key_from_props :
  environment_of sample_launch_without_topics.2 !! "DEFAULT_SUCCESS_TOPIC_ARN"
  = Some "arn:kept".
Proof. vm_compute. reflexivity. Qed.

Lemma LaunchEMRConfigLambda_environment_merge_witness :
  environment_of sample_launch_overriding.2 !! "DEFAULT_SUCCESS_TOPIC_ARN"
    = Some (topic_arn sample_topic) /\
  environment_of sample_launch_overriding.2 !! "STAGE" = Some "prod".
Proof.
  split.
  - apply (proj1 (LaunchEMRConfigLambda_environment_merge sample_dumps
                    "app" "Launch" sample_function_props sample_state_machine
                    tt Omitted Omitted (Passed (Some sample_topic)) Omitted
                    "DEFAULT_SUCCESS_TOPIC_ARN")).
    reflexivity.
  - refine (eq_trans
      (proj1 (proj2 (LaunchEMRConfigLambda_environment_merge sample_dumps
                       "app" "Launch" sample_function_props
                       sample_state_machine tt Omitted Omitted
                       (Passed (Some sample_topic)) Omitted "STAGE")) _) _);
      reflexivity.
Defined.

(** ** More on the store: what a call can change *)

Lemma alloc_allocates_only o w : allocates_only w (alloc o w).
Proof.
  unfold allocates_only. split; [|split; [|split]].
  - apply not_elem_of_dom. unfold alloc. simpl. apply is_fresh.
  - rewrite alloc_lookup_new. by eexists.
  - reflexivity.
  - intros r x Hr. by apply alloc_lookup_old.
Qed.

(** The two ways a call on a code can go. *)
Lemma EmrCode_bind_scope_cases self scope w v w' :
  EmrCode.bind_scope self scope w = Some (v, w') ->
  exists c,
    heap w !! self = Some (OCode c) /\
    v = VDict {[ "S3Path" := VStr (EmrCode.s3_path_of c) ]} /\
    ((exists d, code_bucket_deployment c = Some d /\ w' = w) \/
     (code_bucket_deployment c = None /\
      w' = {| heap := <[self := OCode (EmrCode.set_bucket_deployment c
                                         (deployment_of c scope))]> (heap w);
              deployments := deployments w ++ [deployment_of c scope] |})).
Proof.
  intros Hb.
  destruct (heap w !! self) as [[c| |]|] eqn:Hs;
    try (unfold EmrCode.bind_scope in Hb; rewrite Hs in Hb; discriminate).
  exists c. split; [done|].
  destruct (code_bucket_deployment c) as [d|] eqn:Hd.
  - rewrite (EmrCode_bind_scope_bound _ _ _ _ _ Hs Hd) in Hb.
    injection Hb as <- <-. split; [done|]. left. eauto.
  - rewrite (EmrCode_bind_scope_unbound _ _ _ _ Hs Hd) in Hb.
    injection Hb as <- <-. split; [done|]. right. done.
Qed.

(** After a call on a code, the code has a deployment. *)
Lemma EmrCode_bind_scope_binds self scope w v w' :
  EmrCode.bind_scope self scope w = Some (v, w') ->
  exists d, bound self d w'.
Proof.
  intros Hb.
  destruct (EmrCode_bind_scope_cases _ _ _ _ _ Hb)
    as (c & Hc & _ & [(d & Hd & ->) | (Hn & ->)]).
  - exists d, c. done.
  - eexists _, _. simpl. split; [apply lookup_insert_eq | reflexivity].
Qed.

(** A call on a bootstrap action changes the world as the call on its code. *)
Lemma EmrBootstrapAction_bind_scope_world self scope w v w' :
  EmrBootstrapAction.bind_scope self scope w = Some (v, w') ->
  exists b,
    heap w !! self = Some (OBootstrapAction b) /\
    match boot_code b with
    | Some code => exists v', EmrCode.bind_scope code scope w = Some (v', w')
    | None => w' = w
    end.
Proof.
  intros Hb. unfold EmrBootstrapAction.bind_scope, EmrBootstrapAction.get in Hb.
  destruct (heap w !! self) as [[|b|]|] eqn:Hs; try discriminate.
  exists b. split; [done|]. simpl in Hb.
  destruct (boot_code b) as [code|].
  - destruct (EmrCode.bind_scope code scope w) as [[v1 w1]|]; [|discriminate].
    simpl in Hb. destruct (heap w1 !! self) as [[| |]|]; try discriminate.
    simpl in Hb. injection Hb as _ <-. eauto.
  - simpl in Hb. rewrite Hs in Hb. simpl in Hb. by injection Hb as _ <-.
Qed.

(** The same for a step. *)
Lemma EmrStep_bind_scope_world self scope w v w' :
  EmrStep.bind_scope self scope w = Some (v, w') ->
  exists s,
    heap w !! self = Some (OStep s) /\
    match step_code s with
    | Some code => exists v', EmrCode.bind_scope code scope w = Some (v', w')
    | None => w' = w
    end.
Proof.
  intros Hb. unfold EmrStep.bind_scope, EmrStep.get in Hb.
  destruct (heap w !! self) as [[| |s]|] eqn:Hs; try discriminate.
  exists s. split; [done|]. simpl in Hb.
  destruct (step_code s) as [code|].
  - destruct (EmrCode.bind_scope code scope w) as [[v1 w1]|]; [|discriminate].
    simpl in Hb. destruct (heap w1 !! self) as [[| |]|]; try discriminate.
    simpl in Hb. injection Hb as _ <-. eauto.
  - simpl in Hb. rewrite Hs in Hb. simpl in Hb. by injection Hb as _ <-.
Qed.

(** What one call does to the world: nothing, or it makes a new object that
    is not a code with a deployment, or it instantiates the deployment of a
    code that had none. *)
Lemma step_cases w w' :
  step w w' ->
  w' = w \/
  (exists o, is_bound o = false /\ w' = (alloc o w).2) \/
  (exists r c scope,
     heap w !! r = Some (OCode c) /\
     code_bucket_deployment c = None /\
     w' = {| heap := <[r := OCode (EmrCode.set_bucket_deployment c
                                     (deployment_of c scope))]> (heap w);
             deployments := deployments w ++ [deployment_of c scope] |}).
Proof.
  assert (Hcode : forall self scope v,
            EmrCode.bind_scope self scope w = Some (v, w') ->
            w' = w \/
            (exists o, is_bound o = false /\ w' = (alloc o w).2) \/
            (exists r c scope,
               heap w !! r = Some (OCode c) /\
               code_bucket_deployment c = None /\
               w' = {| heap := <[r := OCode (EmrCode.set_bucket_deployment c
                                               (deployment_of c scope))]> (heap w);
                       deployments := deployments w ++ [deployment_of c scope] |})).
  { intros self scope v Hb.
    destruct (EmrCode_bind_scope_cases _ _ _ _ _ Hb)
      as (c & Hc & _ & [(d & Hd & ->) | (Hn & ->)]); [by left|].
    right. right. by exists self, c, scope. }
  intros Hstep.
  destruct Hstep as
    [ ? ? ? w | ? w | ? ? w | self scope w v w' Hb
    | ? ? ? ? w | self scope w v w' Hb
    | ? ? ? ? ? ? ? w | self scope w v w' Hb ];
    try (right; left; eexists; split; [|reflexivity]; reflexivity).
  - eauto.
  - destruct (EmrBootstrapAction_bind_scope_world _ _ _ _ _ Hb) as (b & _ & H).
    destruct (boot_code b); [destruct H as [v' H]; eauto | by left].
  - destruct (EmrStep_bind_scope_world _ _ _ _ _ Hb) as (s & _ & H).
    destruct (step_code s); [destruct H as [v' H]; eauto | by left].
Qed.

(** ** Constructors *)

(** X1. Each constructor of emr_code.py (EmrCode, through Code.from_path and
    Code.from_props too, EmrBootstrapAction, EmrStep) returns a reference
    that was free, instantiates no resource and leaves every existing object
    as it was; a new code has no deployment. *)
Theorem constructors_allocate_only w :
  (forall props id,
     allocates_only w (EmrCode.init props id w) /\
     unbound (EmrCode.init props id w).1 (EmrCode.init props id w).2) /\
  (forall path bucket prefix,
     allocates_only w (Code.from_path path bucket prefix w) /\
     unbound (Code.from_path path bucket prefix w).1
             (Code.from_path path bucket prefix w).2) /\
  (forall props,
     allocates_only w (Code.from_props props w) /\
     unbound (Code.from_props props w).1 (Code.from_props props w).2) /\
  (forall name path args code,
     allocates_only w (EmrBootstrapAction.init name path args code w)) /\
  (forall name jar main_class args action properties code,
     allocates_only w
       (EmrStep.init name jar main_class args action properties code w)).
Proof.
  repeat split; try apply alloc_allocates_only;
    (eexists; split; [apply alloc_lookup_new | reflexivity]).
Qed.

(** ** The deployment a code instantiates *)

Lemma deployment_id_for_init props id :
  EmrCode.deployment_id
    {| code_deployment_props := props;
       code_deployment_bucket := destination_bucket props;
       code_deployment_prefix := destination_key_prefix props;
       code_id := kwarg_default None id;
       code_bucket_deployment := None |}
  = deployment_id_for id.
Proof. by destruct id as [|[[|a s]|]]. Qed.

(** A code made by the constructor, at a later time when it still has no
    deployment. *)
Lemma EmrCode_init_unbound_later props id w0 w :
  steps (EmrCode.init props id w0).2 w ->
  unbound (EmrCode.init props id w0).1 w ->
  heap w !! (EmrCode.init props id w0).1 =
    Some (OCode {| code_deployment_props := props;
                   code_deployment_bucket := destination_bucket props;
                   code_deployment_prefix := destination_key_prefix props;
                   code_id := kwarg_default None id;
                   code_bucket_deployment := None |}).
Proof.
  intros Hs (c & Hc & Hn). unfold EmrCode.init in *.
  destruct (steps_code _ _ _ _ Hs (alloc_lookup_new _ _)) as (c' & Hc' & He).
  rewrite Hc in Hc'. injection Hc' as <-.
  destruct (evolves_code _ _ He) as (c1 & Heq & Hp & Hb & Hx & Hi & _).
  injection Heq as <-. rewrite Hc. do 2 f_equal.
  destruct c as [p b x i d]. simpl in *. by subst.
Qed.

(** X2. For a code made by the constructor from props and id, a call of
    bind_scope at any later time when it has no deployment yet instantiates
    exactly one BucketDeployment: in the scope of that call, with all the
    props given to the constructor, and named 'BucketDeployment' when the id
    was omitted, None or the empty string and 'BucketDeployment_' followed by
    the id otherwise. The code keeps that deployment. *)
Theorem EmrCode_first_bind_scope_deployment props id w0 w scope :
  steps (EmrCode.init props id w0).2 w ->
  unbound (EmrCode.init props id w0).1 w ->
  let d := {| bd_scope := scope;
              bd_id := deployment_id_for id;
              bd_props := props |} in
  exists v w',
    EmrCode.bind_scope (EmrCode.init props id w0).1 scope w = Some (v, w') /\
    deployments w' = deployments w ++ [d] /\
    bound (EmrCode.init props id w0).1 d w'.
Proof.
  intros Hs Hu d.
  pose proof (EmrCode_init_unbound_later _ _ _ _ Hs Hu) as Hc.
  pose proof (EmrCode_bind_scope_unbound _ _ scope _ Hc eq_refl) as Hb.
  simpl in Hb. rewrite deployment_id_for_init in Hb.
  eexists _, _. split; [exact Hb|]. split; [reflexivity|].
  eexists. simpl. split; [apply lookup_insert_eq | reflexivity].
Qed.

Lemma EmrCode_first_bind_scope_deployment_witness :
  exists v w',
    EmrCode.bind_scope sample_code.1 "app" sample_code.2 = Some (v, w') /\
    deployments w' =
      deployments sample_code.2 ++
        [ {| bd_scope := "app"; bd_id := "BucketDeployment";
             bd_props := sample_props |} ] /\
    bound sample_code.1
      {| bd_scope := "app"; bd_id := "BucketDeployment";
         bd_props := sample_props |} w'.
Proof.
  refine (EmrCode_first_bind_scope_deployment sample_props Omitted empty_world
            sample_code.2 "app" (rtc_refl _ _) _).
  eexists. split; [apply alloc_lookup_new | reflexivity].
Defined.

(** X3. Two codes get the same deployment id exactly when neither has an id
    that counts (None or the empty string) or both have the same id: codes
    without an id all share the name 'BucketDeployment', and an id never
    gives that name. *)
Theorem deployment_id_collision c1 c2 :
  EmrCode.deployment_id c1 = EmrCode.deployment_id c2 <->
  (truthy_str (code_id c1) = false /\ truthy_str (code_id c2) = false) \/
  (truthy_str (code_id c1) = true /\ code_id c1 = code_id c2).
Proof.
  unfold EmrCode.deployment_id.
  destruct (code_id c1) as [[|a1 s1]|], (code_id c2) as [[|a2 s2]|]; simpl;
    split; intros H; try done;
    try (by left); try discriminate;
    try (destruct H as [[H1 H2]|[H1 H2]]; discriminate).
  - injection H as -> ->. by right.
  - destruct H as [[H1 H2]|[H1 H2]]; [discriminate|]. by injection H2 as -> ->.
Qed.

(** X4. Code.from_path is Code.from_props on the props it assembles; at any
    later time the s3_path of its code is 's3://', the bucket's name, '/'
    and the prefix, and a call of bind_scope while there is no deployment
    instantiates one named 'BucketDeployment', in the scope of the call,
    whose only source is the asset at the path and whose destination is the
    bucket and the prefix. *)
Theorem Code_from_path_deployment path bucket prefix w0 w scope :
  let props := {| sources := [Source_asset path];
                  destination_bucket := bucket;
                  destination_key_prefix := Some prefix |} in
  let self := (Code.from_path path bucket prefix w0).1 in
  steps (Code.from_path path bucket prefix w0).2 w ->
  Code.from_path path bucket prefix w0 = Code.from_props props w0 /\
  EmrCode.s3_path self w
    = Some ("s3://" +:+ bucket_name bucket +:+ "/" +:+ prefix) /\
  (unbound self w ->
   exists v w',
     EmrCode.bind_scope self scope w = Some (v, w') /\
     deployments w' = deployments w ++
       [ {| bd_scope := scope; bd_id := "BucketDeployment";
            bd_props := props |} ]).
Proof.
  intros props self Hs. split; [reflexivity|]. split.
  - destruct (EmrCode_bind_scope_after_steps _ _ _ _ scope
                (alloc_lookup_new _ _) Hs) as (_ & _ & _ & Hp & _).
    exact Hp.
  - intros Hu.
    pose proof (EmrCode_init_unbound_later props Omitted w0 w Hs Hu) as Hc.
    pose proof (EmrCode_bind_scope_unbound _ _ scope _ Hc eq_refl) as Hb.
    eexists _, _. split; [exact Hb | reflexivity].
Qed.

Lemma Code_from_path_deployment_witness :
  let r := Code.from_path "./steps" sample_bucket "emr/steps" empty_world in
  EmrCode.s3_path r.1 r.2 = Some "s3://artifacts/emr/steps".
Proof.
  exact (proj1 (proj2 (Code_from_path_deployment "./steps" sample_bucket
                         "emr/steps" empty_world _ "app" (rtc_refl _ _)))).
Defined.

(** ** Calls that change nothing, and codes that are shared *)

(** A call on a bootstrap action whose code, if any, has its deployment. *)
Lemma EmrBootstrapAction_bind_scope_settled self b w scope :
  heap w !! self = Some (OBootstrapAction b) ->
  (boot_code b = None \/ exists r d, boot_code b = Some r /\ bound r d w) ->
  EmrBootstrapAction.bind_scope self scope w
    = Some (EmrBootstrapAction.mapping b, w).
Proof.
  intros Hb Hcode. unfold EmrBootstrapAction.bind_scope, EmrBootstrapAction.get.
  rewrite Hb. simpl. destruct Hcode as [-> | (r & d & -> & c & Hc & Hd)].
  - simpl. by rewrite Hb.
  - rewrite (EmrCode_bind_scope_bound _ _ _ scope _ Hc Hd). simpl.
    by rewrite Hb.
Qed.

(** A call on a step whose code, if any, has its deployment. *)
Lemma EmrStep_bind_scope_settled self s w scope :
  heap w !! self = Some (OStep s) ->
  (step_code s = None \/ exists r d, step_code s = Some r /\ bound r d w) ->
  EmrStep.bind_scope self scope w = Some (EmrStep.mapping s, w).
Proof.
  intros Hs Hcode. unfold EmrStep.bind_scope, EmrStep.get.
  rewrite Hs. simpl. destruct Hcode as [-> | (r & d & -> & c & Hc & Hd)].
  - simpl. by rewrite Hs.
  - rewrite (EmrCode_bind_scope_bound _ _ _ scope _ Hc Hd). simpl.
    by rewrite Hs.
Qed.

(** X5. bind_scope of a bootstrap action or of a step that has no code, or
    whose code already has its deployment, returns its mapping and changes
    nothing: no resource is instantiated and no object is touched. *)
Theorem bind_scope_changes_nothing_when_settled :
  (forall self b w scope,
     heap w !! self = Some (OBootstrapAction b) ->
     (boot_code b = None \/ exists r d, boot_code b = Some r /\ bound r d w) ->
     EmrBootstrapAction.bind_scope self scope w
       = Some (EmrBootstrapAction.mapping b, w)) /\
  (forall self s w scope,
     heap w !! self = Some (OStep s) ->
     (step_code s = None \/ exists r d, step_code s = Some r /\ bound r d w) ->
     EmrStep.bind_scope self scope w = Some (EmrStep.mapping s, w)).
Proof.
  split.
  - apply EmrBootstrapAction_bind_scope_settled.
  - apply EmrStep_bind_scope_settled.
Qed.

(** X6. After one call of bind_scope on a bootstrap action or a step, every
    further call on it, with any scope, returns the same mapping and leaves
    the world exactly as the first call left it. *)
Theorem bind_scope_second_call_changes_nothing :
  (forall self b w scope1,
     heap w !! self = Some (OBootstrapAction b) ->
     code_ok (boot_code b) w ->
     exists w1,
       EmrBootstrapAction.bind_scope self scope1 w
         = Some (EmrBootstrapAction.mapping b, w1) /\
       forall scope2,
         EmrBootstrapAction.bind_scope self scope2 w1
           = Some (EmrBootstrapAction.mapping b, w1)) /\
  (forall self s w scope1,
     heap w !! self = Some (OStep s) ->
     code_ok (step_code s) w ->
     exists w1,
       EmrStep.bind_scope self scope1 w = Some (EmrStep.mapping s, w1) /\
       forall scope2,
         EmrStep.bind_scope self scope2 w1 = Some (EmrStep.mapping s, w1)).
Proof.
  split.
  - intros self b w scope1 Hb Hok.
    destruct (EmrBootstrapAction_bind_scope_returns _ _ scope1 _ Hb Hok)
      as (w1 & Hcall & Hb1 & Hcode).
    exists w1. split; [exact Hcall|]. intros scope2.
    apply EmrBootstrapAction_bind_scope_settled; [exact Hb1|].
    destruct (boot_code b) as [r|]; [right | by left].
    destruct Hcode as [v Hv].
    destruct (EmrCode_bind_scope_binds _ _ _ _ _ Hv) as [d Hd]. eauto.
  - intros self s w scope1 Hs Hok.
    destruct (EmrStep_bind_scope_returns _ _ scope1 _ Hs Hok)
      as (w1 & Hcall & Hs1 & Hcode).
    exists w1. split; [exact Hcall|]. intros scope2.
    apply EmrStep_bind_scope_settled; [exact Hs1|].
    destruct (step_code s) as [r|]; [right | by left].
    destruct Hcode as [v Hv].
    destruct (EmrCode_bind_scope_binds _ _ _ _ _ Hv) as [d Hd]. eauto.
Qed.

Lemma sample_step_lookup :
  exists s, heap sample_step.2 !! sample_step.1 = Some (OStep s) /\
            step_code s = Some sample_code.1.
Proof. eexists. split; [apply alloc_lookup_new | reflexivity]. Defined.

Lemma sample_bootstrap_action_lookup :
  exists b,
    heap sample_bootstrap_action.2 !! sample_bootstrap_action.1
      = Some (OBootstrapAction b) /\
    boot_code b = Some sample_code.1.
Proof. eexists. split; [apply alloc_lookup_new | reflexivity]. Defined.

Lemma bind_scope_second_call_changes_nothing_witness :
  exists s w1,
    EmrStep.bind_scope sample_step.1 "app" sample_step.2
      = Some (EmrStep.mapping s, w1) /\
    EmrStep.bind_scope sample_step.1 "other" w1
      = Some (EmrStep.mapping s, w1).
Proof.
  destruct sample_step_lookup as (s & Hs & Hcode).
  destruct (proj2 bind_scope_second_call_changes_nothing
              sample_step.1 s sample_step.2 "app" Hs) as (w1 & H1 & H2).
  - rewrite Hcode. exact sample_step_code_ok.
  - exists s, w1. split; [exact H1 | exact (H2 "other")].
Defined.

(** A code that has no deployment, as the sample step sees it once
    constructed. *)
Lemma sample_code_unbound_for_step :
  exists c, heap sample_step.2 !! sample_code.1 = Some (OCode c) /\
            code_bucket_deployment c = None.
Proof.
  eexists. split; [apply alloc_lookup_old, alloc_lookup_new | reflexivity].
Defined.

Lemma bind_scope_changes_nothing_when_settled_witness :
  exists s,
    heap (EmrStep.init "copy" "command-runner.jar" Omitted Omitted Omitted
            Omitted Omitted empty_world).2
      !! (EmrStep.init "copy" "command-runner.jar" Omitted Omitted Omitted
            Omitted Omitted empty_world).1 = Some (OStep s) /\
    EmrStep.bind_scope
      (EmrStep.init "copy" "command-runner.jar" Omitted Omitted Omitted
         Omitted Omitted empty_world).1 "app"
      (EmrStep.init "copy" "command-runner.jar" Omitted Omitted Omitted
         Omitted Omitted empty_world).2
    = Some (EmrStep.mapping s,
            (EmrStep.init "copy" "command-runner.jar" Omitted Omitted Omitted
               Omitted Omitted empty_world).2).
Proof.
  eexists. split; [apply alloc_lookup_new|].
  apply (proj2 bind_scope_changes_nothing_when_settled);
    [apply alloc_lookup_new | by left].
Defined.

(** X7. When a step and a bootstrap action share a code that has no
    deployment, binding both instantiates one deployment only, in the scope
    of whichever is bound first: the first call adds it, the second call
    returns its mapping and changes nothing. *)
Theorem shared_code_deployed_once rs s rb b r c w scope_s scope_b :
  heap w !! rs = Some (OStep s) ->
  step_code s = Some r ->
  heap w !! rb = Some (OBootstrapAction b) ->
  boot_code b = Some r ->
  heap w !! r = Some (OCode c) ->
  code_bucket_deployment c = None ->
  (exists w1,
     EmrStep.bind_scope rs scope_s w = Some (EmrStep.mapping s, w1) /\
     deployments w1 = deployments w ++ [deployment_of c scope_s] /\
     EmrBootstrapAction.bind_scope rb scope_b w1
       = Some (EmrBootstrapAction.mapping b, w1)) /\
  (exists w1,
     EmrBootstrapAction.bind_scope rb scope_b w
       = Some (EmrBootstrapAction.mapping b, w1) /\
     deployments w1 = deployments w ++ [deployment_of c scope_b] /\
     EmrStep.bind_scope rs scope_s w1 = Some (EmrStep.mapping s, w1)).
Proof.
  intros Hs Hsc Hb Hbc Hc Hn.
  assert (Hok : exists c, heap w !! r = Some (OCode c)) by eauto.
  split.
  - destruct (EmrStep_bind_scope_returns rs s scope_s w Hs) as (w1 & Hcall & _ & Hcode).
    { by rewrite Hsc. }
    rewrite Hsc in Hcode. destruct Hcode as [v Hv].
    pose proof (EmrCode_bind_scope_binds _ _ _ _ _ Hv) as [d Hd].
    pose proof (EmrCode_bind_scope_evolves _ _ _ _ _ _ _ Hv Hb) as (o & Ho & He).
    apply evolves_bootstrap_action in He as ->.
    rewrite (EmrCode_bind_scope_unbound _ _ scope_s _ Hc Hn) in Hv.
    exists w1. split; [exact Hcall|]. split.
    + injection Hv as _ <-. reflexivity.
    + apply EmrBootstrapAction_bind_scope_settled; [exact Ho|]. right. eauto.
  - destruct (EmrBootstrapAction_bind_scope_returns rb b scope_b w Hb)
      as (w1 & Hcall & _ & Hcode).
    { by rewrite Hbc. }
    rewrite Hbc in Hcode. destruct Hcode as [v Hv].
    pose proof (EmrCode_bind_scope_binds _ _ _ _ _ Hv) as [d Hd].
    pose proof (EmrCode_bind_scope_evolves _ _ _ _ _ _ _ Hv Hs) as (o & Ho & He).
    apply evolves_step in He as ->.
    rewrite (EmrCode_bind_scope_unbound _ _ scope_b _ Hc Hn) in Hv.
    exists w1. split; [exact Hcall|]. split.
    + injection Hv as _ <-. reflexivity.
    + apply EmrStep_bind_scope_settled; [exact Ho|]. right. eauto.
Qed.

Lemma shared_code_deployed_once_witness :
  exists s b c w1,
    EmrStep.bind_scope sample_step.1 "steps" sample_bootstrap_action.2
      = Some (EmrStep.mapping s, w1) /\
    deployments w1 =
      deployments sample_bootstrap_action.2 ++ [deployment_of c "steps"] /\
    EmrBootstrapAction.bind_scope sample_bootstrap_action.1 "bootstrap" w1
      = Some (EmrBootstrapAction.mapping b, w1).
Proof.
  destruct sample_step_lookup as (s & Hs & Hsc).
  destruct sample_bootstrap_action_lookup as (b & Hb & Hbc).
  destruct sample_code_unbound_for_step as (c & Hc & Hn).
  destruct (proj1 (shared_code_deployed_once
              sample_step.1 s sample_bootstrap_action.1 b sample_code.1 c
              sample_bootstrap_action.2 "steps" "bootstrap"
              (alloc_lookup_old _ _ _ _ Hs) Hsc Hb Hbc
              (alloc_lookup_old _ _ _ _ Hc) Hn))
    as (w1 & H1 & H2 & H3).
  exists s, b, c, w1. split; [exact H1|]. split; [exact H2 | exact H3].
Defined.

(** ** Resources over a whole program *)

Lemma step_deployments w w' :
  step w w' ->
  deployments w' = deployments w \/
  exists d, deployments w' = deployments w ++ [d].
Proof.
  intros Hstep.
  destruct (step_cases _ _ Hstep)
    as [-> | [(o & _ & ->) | (r & c & scope & _ & _ & ->)]]; eauto.
Qed.

(** X8. No call removes or reorders a resource: one call leaves the
    deployments as they are or adds one at the end, and after any number of
    calls the earlier deployments are a prefix of the later ones. *)
Theorem deployments_only_grow w w' :
  steps w w' ->
  deployments w `prefix_of` deployments w' /\
  (step w w' ->
   deployments w' = deployments w \/
   exists d, deployments w' = deployments w ++ [d]).
Proof.
  intros Hs. split; [|apply step_deployments].
  induction Hs as [w | w w1 w2 Hstep _ IH]; [done|].
  etrans; [|exact IH].
  destruct (step_deployments _ _ Hstep) as [-> | [d ->]];
    [done | by apply prefix_app_r].
Qed.

Lemma sample_step_bound_step :
  exists w', steps sample_step.2 w' /\ step sample_step.2 w'.
Proof.
  destruct sample_step_lookup as (s & Hs & Hcode).
  destruct (EmrStep_bind_scope_returns _ _ "app" _ Hs) as (w' & Hcall & _).
  - rewrite Hcode. exact sample_step_code_ok.
  - exists w'. split; [apply rtc_once|]; econstructor 8; exact Hcall.
Defined.

Lemma deployments_only_grow_witness :
  exists w',
    deployments sample_step.2 `prefix_of` deployments w' /\
    (deployments w' = deployments sample_step.2 \/
     exists d, deployments w' = deployments sample_step.2 ++ [d]).
Proof.
  destruct sample_step_bound_step as (w' & Hsteps & Hstep).
  exists w'.
  destruct (deployments_only_grow _ _ Hsteps) as [Hp Hone].
  split; [exact Hp | exact (Hone Hstep)].
Defined.

Lemma bound_codes_alloc o w :
  is_bound o = false ->
  bound_codes (alloc o w).2 = bound_codes w.
Proof.
  intros Ho. unfold bound_codes, alloc. simpl.
  rewrite map_filter_insert_False by (simpl; by rewrite Ho).
  rewrite delete_id; [done|].
  apply not_elem_of_dom, is_fresh.
Qed.

Lemma bound_codes_deploy r c d w :
  heap w !! r = Some (OCode c) ->
  code_bucket_deployment c = None ->
  size (bound_codes
          {| heap := <[r := OCode (EmrCode.set_bucket_deployment c d)]> (heap w);
             deployments := deployments w ++ [d] |})
  = S (size (bound_codes w)).
Proof.
  intros Hc Hn. unfold bound_codes. simpl.
  rewrite map_filter_insert_True by done.
  apply map_size_insert_None, map_lookup_filter_None. right.
  intros o Ho. rewrite Hc in Ho. injection Ho as <-. simpl. by rewrite Hn.
Qed.

Lemma step_count w w' :
  step w w' ->
  length (deployments w') + size (bound_codes w)
  = length (deployments w) + size (bound_codes w').
Proof.
  intros Hstep.
  destruct (step_cases _ _ Hstep)
    as [-> | [(o & Ho & ->) | (r & c & scope & Hc & Hn & ->)]].
  - done.
  - by rewrite bound_codes_alloc.
  - rewrite (bound_codes_deploy _ _ _ _ Hc Hn). simpl.
    rewrite length_app. simpl. lia.
Qed.

(** X9. Deployments and codes stay matched: over any number of calls, the
    number of deployments added is the number of codes that got their
    deployment; so in a program that starts with nothing, there are exactly
    as many deployments as codes that have one. *)
Theorem deployments_match_bound_codes w w' :
  steps w w' ->
  length (deployments w') + size (bound_codes w)
    = length (deployments w) + size (bound_codes w') /\
  (w = empty_world -> length (deployments w') = size (bound_codes w')).
Proof.
  intros Hs.
  assert (Hcount : length (deployments w') + size (bound_codes w)
                   = length (deployments w) + size (bound_codes w')).
  { induction Hs as [w | w w1 w2 Hstep _ IH]; [done|].
    pose proof (step_count _ _ Hstep). lia. }
  split; [exact Hcount|].
  intros ->. unfold bound_codes in Hcount at 1. simpl in Hcount.
  rewrite map_filter_empty, map_size_empty in Hcount. simpl in Hcount. lia.
Qed.

Lemma sample_program :
  exists w', steps empty_world w' /\ steps sample_step.2 w'.
Proof.
  destruct sample_step_bound_step as (w' & Hsteps & _).
  exists w'. split; [|exact Hsteps].
  eapply rtc_l; [apply (step_EmrCode_init sample_props Omitted)|].
  eapply rtc_l; [|exact Hsteps].
  apply (step_EmrStep_init "wordcount" "command-runner.jar"
           (Passed (Some "WordCount")) (Passed (Some ["in"; "out"]))
           Omitted Omitted (Passed (Some sample_code.1))).
Defined.

Lemma deployments_match_bound_codes_witness :
  exists w', steps sample_step.2 w' /\
             length (deployments w') = size (bound_codes w').
Proof.
  destruct sample_program as (w' & Hfrom_empty & Hsteps).
  exists w'. split; [exact Hsteps|].
  exact (proj2 (deployments_match_bound_codes _ _ Hfrom_empty) eq_refl).
Defined.

(** ** What a mapping tells about the object *)

Lemma value_of_strs_inj l1 l2 :
  value_of_strs l1 = value_of_strs l2 -> l1 = l2.
Proof.
  unfold value_of_strs. intros H. injection H as H.
  revert l2 H. induction l1 as [|x l1 IH]; intros [|y l2] H;
    simpl in H; try discriminate; [done|].
  injection H as -> H. f_equal. by apply IH.
Qed.

Lemma value_of_opt_str_inj s1 s2 :
  value_of_opt_str s1 = value_of_opt_str s2 -> s1 = s2.
Proof. destruct s1, s2; simpl; intros H; try discriminate; congruence. Qed.

Lemma StepFailureAction_name_inj a1 a2 :
  StepFailureAction_name a1 = StepFailureAction_name a2 -> a1 = a2.
Proof. destruct a1, a2; simpl; intros H; try discriminate; done. Qed.

Lemma args_value (args : option (list string)) :
  (if truthy_list args then value_of_opt_strs args else VList [])
  = value_of_strs (default [] args).
Proof. by destruct args as [[|x l]|]. Qed.

Lemma properties_value (properties : option (list value)) :
  (if truthy_list properties then value_of_opt_list properties else VList [])
  = VList (default [] properties).
Proof. by destruct properties as [[|x l]|]. Qed.

Lemma EmrBootstrapAction_mapping_entries b :
  entry "Name" (EmrBootstrapAction.mapping b) = Some (VStr (boot_name b)) /\
  exists inner,
    entry "ScriptBootstrapAction" (EmrBootstrapAction.mapping b) = Some inner /\
    entry "Path" inner = Some (VStr (boot_path b)) /\
    entry "Args" inner = Some (value_of_strs (default [] (boot_args b))).
Proof.
  split; [reflexivity|]. eexists. split; [reflexivity|].
  split; [reflexivity|]. simpl. rewrite <- args_value. reflexivity.
Qed.

Lemma EmrStep_mapping_entries s :
  entry "Name" (EmrStep.mapping s) = Some (VStr (step_name s)) /\
  entry "ActionOnFailure" (EmrStep.mapping s)
    = Some (VStr (StepFailureAction_name (step_action_on_failure s))) /\
  exists inner,
    entry "HadoopJarStep" (EmrStep.mapping s) = Some inner /\
    entry "Jar" inner = Some (VStr (step_jar s)) /\
    entry "MainClass" inner = Some (value_of_opt_str (step_main_class s)) /\
    entry "Args" inner = Some (value_of_strs (default [] (step_args s))) /\
    entry "Properties" inner = Some (VList (default [] (step_properties s))).
Proof.
  split; [reflexivity|]. split; [reflexivity|].
  eexists. split; [reflexivity|].
  split; [reflexivity|]. split; [reflexivity|]. split.
  - simpl. rewrite <- args_value. reflexivity.
  - simpl. rewrite <- properties_value. reflexivity.
Qed.

(** X10. The mapping of a bootstrap action tells its name, its path and its
    args, and nothing else: two actions have equal mappings exactly when they
    agree on the name, the path and the args, where args None and args []
    count as the same; the code does not show. The same holds for a step,
    with its name, action on failure, jar, main class, args and properties. *)
Theorem mapping_determines_attributes :
  (forall b1 b2,
     EmrBootstrapAction.mapping b1 = EmrBootstrapAction.mapping b2 <->
     boot_name b1 = boot_name b2 /\
     boot_path b1 = boot_path b2 /\
     default [] (boot_args b1) = default [] (boot_args b2)) /\
  (forall s1 s2,
     EmrStep.mapping s1 = EmrStep.mapping s2 <->
     step_name s1 = step_name s2 /\
     step_action_on_failure s1 = step_action_on_failure s2 /\
     step_jar s1 = step_jar s2 /\
     step_main_class s1 = step_main_class s2 /\
     default [] (step_args s1) = default [] (step_args s2) /\
     default [] (step_properties s1) = default [] (step_properties s2)).
Proof.
  split.
  - intros b1 b2. split.
    + intros H.
      destruct (EmrBootstrapAction_mapping_entries b1)
        as (Hn1 & i1 & Hi1 & Hp1 & Ha1).
      destruct (EmrBootstrapAction_mapping_entries b2)
        as (Hn2 & i2 & Hi2 & Hp2 & Ha2).
      rewrite H in Hn1, Hi1. rewrite Hn1 in Hn2. rewrite Hi1 in Hi2.
      injection Hi2 as ->. rewrite Hp1 in Hp2. rewrite Ha1 in Ha2.
      injection Hn2 as ->. injection Hp2 as ->.
      apply (inj Some), value_of_strs_inj in Ha2. done.
    + intros (Hn & Hp & Ha). unfold EmrBootstrapAction.mapping.
      by rewrite !args_value, Hn, Hp, Ha.
  - intros s1 s2. split.
    + intros H.
      destruct (EmrStep_mapping_entries s1)
        as (Hn1 & Ho1 & i1 & Hi1 & Hj1 & Hm1 & Ha1 & Hp1).
      destruct (EmrStep_mapping_entries s2)
        as (Hn2 & Ho2 & i2 & Hi2 & Hj2 & Hm2 & Ha2 & Hp2).
      rewrite H in Hn1, Ho1, Hi1.
      rewrite Hn1 in Hn2. rewrite Ho1 in Ho2. rewrite Hi1 in Hi2.
      injection Hi2 as ->.
      rewrite Hj1 in Hj2. rewrite Hm1 in Hm2.
      rewrite Ha1 in Ha2. rewrite Hp1 in Hp2.
      injection Hn2 as ->. injection Ho2 as Ho.
      apply StepFailureAction_name_inj in Ho.
      injection Hj2 as ->. injection Hm2 as Hm.
      apply value_of_opt_str_inj in Hm.
      apply (inj Some), value_of_strs_inj in Ha2.
      injection Hp2 as ->. done.
    + intros (Hn & Ho & Hj & Hm & Ha & Hp). unfold EmrStep.mapping.
      by rewrite !args_value, !properties_value, Hn, Ho, Hj, Hm, Ha, Hp.
Qed.

(** ** The utilities stack *)

Lemma append_assoc (s1 s2 s3 : string) :
  (s1 +:+ s2) +:+ s3 = s1 +:+ (s2 +:+ s3).
Proof.
  induction s1 as [|a s1 IH]; [done|].
  change (String a ((s1 +:+ s2) +:+ s3) = String a (s1 +:+ (s2 +:+ s3))).
  by f_equal.
Qed.

Lemma grandchild_path scope id1 id2 :
  child_path (child_path scope id1) id2
  = scope +:+ ("/" +:+ id1 +:+ "/" +:+ id2).
Proof. unfold child_path. by rewrite !append_assoc. Qed.

(** X11. Whatever the stack props, every construct an EMRUtilitiesStack
    instantiates has a path of its own: the layer and the StepFunctionLambdas
    construct are under the stack, the three functions are under the
    StepFunctionLambdas construct, and the five paths are pairwise
    different. *)
Theorem EMRUtilitiesStack_paths_distinct
    (_lambda_path : string -> string) {StackProps : Type}
    (Stack : StackProps -> Construct) (props : StackProps) :
  let self := EMRUtilitiesStack.init _lambda_path Stack props in
  let lambdas := EMRUtilitiesStack.step_function_lambdas self in
  let lambdas_path :=
    child_path (Stack props) "EMRUtilitiesStack_StepFunctionLambdas" in
  lv_scope (EMRUtilitiesStack._emr_config_utils_layer self)
    = Stack props /\
  fn_scope (StepFunctionLambdas.run_job_flow lambdas) = lambdas_path /\
  fn_scope (StepFunctionLambdas.add_job_flow_steps lambdas) = lambdas_path /\
  fn_scope (StepFunctionLambdas.check_step_status lambdas) = lambdas_path /\
  NoDup [ layer_path (EMRUtilitiesStack._emr_config_utils_layer self);
          lambdas_path;
          function_path (StepFunctionLambdas.run_job_flow lambdas);
          function_path (StepFunctionLambdas.add_job_flow_steps lambdas);
          function_path (StepFunctionLambdas.check_step_status lambdas) ].
Proof.
  intros self lambdas lambdas_path.
  do 4 (split; [reflexivity|]).
  unfold layer_path, function_path, lambdas_path. simpl.
  rewrite !grandchild_path. unfold child_path.
  change
    (NoDup ((String.app (Stack props)) <$>
       [ "/" +:+ "EMRUtilitiesStack_EMRConfigUtilsLayer";
         "/" +:+ "EMRUtilitiesStack_StepFunctionLambdas";
         "/" +:+ "EMRUtilitiesStack_StepFunctionLambdas" +:+ "/"
             +:+ "StepFunctionLambdas_AddJobFlow";
         "/" +:+ "EMRUtilitiesStack_StepFunctionLambdas" +:+ "/"
             +:+ "StepFunctionLambdas_AddJobFlowSteps";
         "/" +:+ "EMRUtilitiesStack_StepFunctionLambdas" +:+ "/"
             +:+ "StepFunctionLambdas_CheckStepStatus" ])).
  apply NoDup_fmap_2; [apply _|].
  apply (bool_decide_unpack _). vm_compute. exact I.
Qed.

(** ** Python's [str] on the arguments of the launch function *)

Lemma str_int_inj n m : str_int n = str_int m -> n = m.
Proof.
  unfold str_int. intros H.
  assert (Hparse : forall z,
            NilZero.int_of_string (NilZero.string_of_int (Z.to_int z))
            = Some (Z.to_int z)).
  { intros z. apply NilZero.isi; destruct z; simpl; try discriminate;
      intros [= Hnil]; by apply DecimalPos.Unsigned.to_uint_nonnil in Hnil. }
  apply DecimalZ.to_int_inj, (inj Some).
  by rewrite <- !Hparse, H.
Qed.

Lemma str_int_not_None n : str_int n <> "None".
Proof.
  unfold str_int. intros H.
  assert (Hparse :
            NilZero.int_of_string (NilZero.string_of_int (Z.to_int n))
            = Some (Z.to_int n)).
  { apply NilZero.isi; destruct n; simpl; try discriminate;
      intros [= Hnil]; by apply DecimalPos.Unsigned.to_uint_nonnil in Hnil. }
  rewrite H in Hparse. discriminate.
Qed.

Lemma str_opt_int_inj x y : str_opt_int x = str_opt_int y -> x = y.
Proof.
  destruct x as [n|], y as [m|]; simpl; intros H.
  - f_equal. by apply str_int_inj.
  - by apply str_int_not_None in H.
  - symmetry in H. by apply str_int_not_None in H.
  - done.
Qed.

Lemma str_opt_bool_inj x y : str_opt_bool x = str_opt_bool y -> x = y.
Proof. destruct x as [[|]|], y as [[|]|]; simpl; intros H; by try discriminate. Qed.

(** ** Reusing props, and what the environment tells *)

Section launch_reuse.

Context {Json : Type} (json_dumps : Json -> string).

(** X12. The constructor leaves its merged environment in the props it was
    given, so a second function constructed from the same props starts from
    the environment of the first: a key the second construction does not set
    keeps the first one's value. So a topic supplied to the first and not to
    the second still shows in the second function's environment, and
    constructing again with the same arguments gives the same environment. *)
Theorem LaunchEMRConfigLambda_props_reuse
    scope1 id1 scope2 id2 props
    step_function1 cluster_config1 wait_time1 fail_if_running1
    success_topic1 failure_topic1
    step_function2 cluster_config2 wait_time2 fail_if_running2
    success_topic2 failure_topic2 :
  let first :=
    LaunchEMRConfigLambda.init json_dumps scope1 id1 props step_function1
      cluster_config1 wait_time1 fail_if_running1
      success_topic1 failure_topic1 in
  let second :=
    LaunchEMRConfigLambda.init json_dumps scope2 id2 first.1 step_function2
      cluster_config2 wait_time2 fail_if_running2
      success_topic2 failure_topic2 in
  let again :=
    LaunchEMRConfigLambda.init json_dumps scope2 id2 first.1 step_function1
      cluster_config1 wait_time1 fail_if_running1
      success_topic1 failure_topic1 in
  let derived2 :=
    LaunchEMRConfigLambda.environment json_dumps step_function2 cluster_config2
      (kwarg_default (Some 60%Z) wait_time2)
      (kwarg_default (Some false) fail_if_running2)
      (kwarg_default None success_topic2)
      (kwarg_default None failure_topic2) in
  (forall k,
     environment_of second.2 !! k =
       match derived2 !! k with
       | Some v => Some v
       | None => environment_of first.2 !! k
       end) /\
  (forall topic,
     kwarg_default None success_topic1 = Some topic ->
     kwarg_default None success_topic2 = None ->
     environment_of second.2 !! "DEFAULT_SUCCESS_TOPIC_ARN"
       = Some (topic_arn topic)) /\
  (forall topic,
     kwarg_default None failure_topic1 = Some topic ->
     kwarg_default None failure_topic2 = None ->
     environment_of second.2 !! "DEFAULT_FAILURE_TOPIC_ARN"
       = Some (topic_arn topic)) /\
  environment_of again.2 = environment_of first.2.
Proof.
  intros first second again derived2.
  assert (Hsecond : forall k,
            environment_of second.2 !! k =
              match derived2 !! k with
              | Some v => Some v
              | None => environment_of first.2 !! k
              end).
  { intros k. unfold second. rewrite init_lookup. reflexivity. }
  split; [exact Hsecond|]. split; [|split].
  - intros topic H1 H2. rewrite Hsecond. unfold derived2, first.
    rewrite init_lookup.
    destruct (environment_entries json_dumps step_function2 cluster_config2
                (kwarg_default (Some 60%Z) wait_time2)
                (kwarg_default (Some false) fail_if_running2)
                (kwarg_default None success_topic2)
                (kwarg_default None failure_topic2))
      as (_ & _ & _ & _ & -> & _).
    destruct (environment_entries json_dumps step_function1 cluster_config1
                (kwarg_default (Some 60%Z) wait_time1)
                (kwarg_default (Some false) fail_if_running1)
                (kwarg_default None success_topic1)
                (kwarg_default None failure_topic1))
      as (_ & _ & _ & _ & -> & _).
    by rewrite H1, H2.
  - intros topic H1 H2. rewrite Hsecond. unfold derived2, first.
    rewrite init_lookup.
    destruct (environment_entries json_dumps step_function2 cluster_config2
                (kwarg_default (Some 60%Z) wait_time2)
                (kwarg_default (Some false) fail_if_running2)
                (kwarg_default None success_topic2)
                (kwarg_default None failure_topic2))
      as (_ & _ & _ & _ & _ & -> & _).
    destruct (environment_entries json_dumps step_function1 cluster_config1
                (kwarg_default (Some 60%Z) wait_time1)
                (kwarg_default (Some false) fail_if_running1)
                (kwarg_default None success_topic1)
                (kwarg_default None failure_topic1))
      as (_ & _ & _ & _ & _ & -> & _).
    by rewrite H1, H2.
  - apply map_eq. intros k. unfold again. rewrite init_lookup.
    change (default ∅ (fp_environment first.1)) with (environment_of first.2).
    destruct (LaunchEMRConfigLambda.environment _ _ _ _ _ _ _ !! k) eqn:Hk.
    + unfold first. by rewrite init_lookup, Hk.
    + done.
Qed.

(** X13. The environment keeps the wait time and the fail-if-running flag
    apart: two constructions whose DEFAULT_STEP_FUNCTION_WAIT_TIME entries
    are equal were given the same wait time, where an omitted one is 60 and
    None differs from every integer; and likewise for
    DEFAULT_FAIL_IF_JOB_RUNNING, where an omitted flag is False. *)
Theorem LaunchEMRConfigLambda_environment_tells_arguments
    scope1 id1 props1 step_function1 cluster_config1 wait_time1
    fail_if_running1 success_topic1 failure_topic1
    scope2 id2 props2 step_function2 cluster_config2 wait_time2
    fail_if_running2 success_topic2 failure_topic2 :
  let env1 :=
    environment_of
      (LaunchEMRConfigLambda.init json_dumps scope1 id1 props1 step_function1
         cluster_config1 wait_time1 fail_if_running1
         success_topic1 failure_topic1).2 in
  let env2 :=
    environment_of
      (LaunchEMRConfigLambda.init json_dumps scope2 id2 props2 step_function2
         cluster_config2 wait_time2 fail_if_running2
         success_topic2 failure_topic2).2 in
  (env1 !! "DEFAULT_STEP_FUNCTION_WAIT_TIME"
     = env2 !! "DEFAULT_STEP_FUNCTION_WAIT_TIME" ->
   kwarg_default (Some 60%Z) wait_time1 = kwarg_default (Some 60%Z) wait_time2) /\
  (env1 !! "DEFAULT_FAIL_IF_JOB_RUNNING"
     = env2 !! "DEFAULT_FAIL_IF_JOB_RUNNING" ->
   kwarg_default (Some false) fail_if_running1
     = kwarg_default (Some false) fail_if_running2).
Proof.
  intros env1 env2. subst env1 env2. rewrite !init_lookup.
  destruct (environment_entries json_dumps step_function1 cluster_config1
              (kwarg_default (Some 60%Z) wait_time1)
              (kwarg_default (Some false) fail_if_running1)
              (kwarg_default None success_topic1)
              (kwarg_default None failure_topic1))
    as (_ & _ & -> & -> & _).
  destruct (environment_entries json_dumps step_function2 cluster_config2
              (kwarg_default (Some 60%Z) wait_time2)
              (kwarg_default (Some false) fail_if_running2)
              (kwarg_default None success_topic2)
              (kwarg_default None failure_topic2))
    as (_ & _ & -> & -> & _).
  split; intros H; apply (inj Some) in H.
  - by apply str_opt_int_inj.
  - by apply str_opt_bool_inj.
Qed.

End launch_reuse.

Lemma LaunchEMRConfigLambda_props_reuse_witness :
  environment_of
    (LaunchEMRConfigLambda.init sample_dumps "app" "Relaunch"
       sample_launch_with_topics.1 sample_state_machine tt
       Omitted Omitted Omitted Omitted).2
    !! "DEFAULT_SUCCESS_TOPIC_ARN"
  = Some (topic_arn sample_topic).
Proof.
  exact (proj1 (proj2 (LaunchEMRConfigLambda_props_reuse sample_dumps
           "app" "Launch" "app" "Relaunch" (set_environment sample_function_props ∅)
           sample_state_machine tt Omitted Omitted
           (Passed (Some sample_topic)) (Passed (Some sample_topic))
           sample_state_machine tt Omitted Omitted Omitted Omitted))
         sample_topic eq_refl eq_refl).
Defined.

Lemma LaunchEMRConfigLambda_environment_tells_arguments_witness :
  kwarg_default (Some 60%Z) (Omitted : kwarg (option Z))
  = kwarg_default (Some 60%Z) (Passed (Some 60%Z)).
Proof.
  refine (proj1 (LaunchEMRConfigLambda_environment_tells_arguments sample_dumps
            "app" "A" sample_function_props sample_state_machine tt
            Omitted Omitted Omitted Omitted
            "app" "B" sample_function_props sample_state_machine tt
            (Passed (Some 60%Z)) Omitted Omitted Omitted) _).
  reflexivity.
Defined.

(** ** What a call of bind_scope leaves alone *)

Lemma EmrCode_bind_scope_frame self scope w v w' r :
  EmrCode.bind_scope self scope w = Some (v, w') ->
  r <> self ->
  heap w' !! r = heap w !! r.
Proof.
  intros Hb Hne.
  destruct (EmrCode_bind_scope_cases _ _ _ _ _ Hb)
    as (c & Hc & _ & [(d & Hd & ->) | (Hn & ->)]); [done|].
  simpl. by rewrite lookup_insert_ne.
Qed.

Lemma EmrCode_bind_scope_dom self scope w v w' :
  EmrCode.bind_scope self scope w = Some (v, w') ->
  dom (heap w') = dom (heap w).
Proof.
  intros Hb.
  destruct (EmrCode_bind_scope_cases _ _ _ _ _ Hb)
    as (c & Hc & _ & [(d & Hd & ->) | (Hn & ->)]); [done|].
  simpl. apply dom_insert_lookup_L. eauto.
Qed.

(** X14. A call of bind_scope makes no object and touches one object at
    most: on a code, every other object is as it was; on a bootstrap action
    or a step, every object other than its code is as it was, the action or
    step included. So binding one object never instantiates the deployment
    of a code it does not refer to. *)
Theorem bind_scope_frame :
  (forall self scope w v w',
     EmrCode.bind_scope self scope w = Some (v, w') ->
     dom (heap w') = dom (heap w) /\
     forall r, r <> self -> heap w' !! r = heap w !! r) /\
  (forall self b scope w v w',
     heap w !! self = Some (OBootstrapAction b) ->
     EmrBootstrapAction.bind_scope self scope w = Some (v, w') ->
     dom (heap w') = dom (heap w) /\
     forall r, boot_code b <> Some r -> heap w' !! r = heap w !! r) /\
  (forall self s scope w v w',
     heap w !! self = Some (OStep s) ->
     EmrStep.bind_scope self scope w = Some (v, w') ->
     dom (heap w') = dom (heap w) /\
     forall r, step_code s <> Some r -> heap w' !! r = heap w !! r).
Proof.
  split; [|split].
  - intros self scope w v w' Hb. split.
    + by eapply EmrCode_bind_scope_dom.
    + intros r Hne. by eapply EmrCode_bind_scope_frame.
  - intros self b scope w v w' Hself Hb.
    destruct (EmrBootstrapAction_bind_scope_world _ _ _ _ _ Hb)
      as (b' & Hb' & Hcode).
    rewrite Hself in Hb'. injection Hb' as <-.
    destruct (boot_code b) as [code|]; [|by subst].
    destruct Hcode as [v' Hv]. split.
    + by eapply EmrCode_bind_scope_dom.
    + intros r Hne. eapply EmrCode_bind_scope_frame; [exact Hv|]. congruence.
  - intros self s scope w v w' Hself Hb.
    destruct (EmrStep_bind_scope_world _ _ _ _ _ Hb) as (s' & Hs' & Hcode).
    rewrite Hself in Hs'. injection Hs' as <-.
    destruct (step_code s) as [code|]; [|by subst].
    destruct Hcode as [v' Hv]. split.
    + by eapply EmrCode_bind_scope_dom.
    + intros r Hne. eapply EmrCode_bind_scope_frame; [exact Hv|]. congruence.
Qed.

Lemma bind_scope_frame_witness :
  exists v w',
    EmrStep.bind_scope sample_step.1 "app" sample_bootstrap_action.2
      = Some (v, w') /\
    dom (heap w') = dom (heap sample_bootstrap_action.2) /\
    heap w' !! sample_bootstrap_action.1
      = heap sample_bootstrap_action.2 !! sample_bootstrap_action.1.
Proof.
  destruct sample_step_lookup as (s & Hs & Hcode).
  pose proof (alloc_lookup_old _ _ _ _ Hs : heap sample_bootstrap_action.2
                !! sample_step.1 = Some (OStep s)) as Hs'.
  destruct (EmrStep_bind_scope_returns _ _ "app" _ Hs') as (w' & Hcall & _).
  { rewrite Hcode. exact sample_bootstrap_action_code_ok. }
  destruct (proj2 (proj2 bind_scope_frame) _ _ _ _ _ _ Hs' Hcall)
    as [Hdom Hframe].
  exists (EmrStep.mapping s), w'. split; [exact Hcall|]. split; [exact Hdom|].
  apply Hframe. rewrite Hcode. intros Heq. apply (inj Some) in Heq.
  destruct sample_bootstrap_action_code_ok as [c Hc].
  destruct sample_bootstrap_action_lookup as (b & Hb & _).
  rewrite <- Heq, Hc in Hb. discriminate.
Defined.
